(** * ZeroTier One, node/Peer.hpp: the per-peer connection record

    A shallow embedding of [class Peer] and its nested [class WanPath]:
    path activity, the latency estimate, the rendezvous pairing
    [findCommonGround], path forgetting, the path accessors and the
    versioned binary codec ([serialize] / [deserialize]).

    Fixed-width C++ integers are values of [Z] with the wrap-around written
    out ([u16], [u32], [u64]).  C++ exceptions are the [Throw] results of a
    small state-and-exception monad [M]: a method that throws half-way leaves
    the object as mutated so far, exactly as the C++ object is left.

    The atomic reference count [__refCount] carries no data of the record and
    is not part of the model. *)

From Stdlib Require Import ZArith List Bool Lia.
From Stdlib Require Import Strings.Byte.
Import ListNotations.
Local Open Scope Z_scope.

(** ** Fixed-width unsigned arithmetic *)

Definition u8 (x : Z) : Z := x mod 2 ^ 8.
Definition u16 (x : Z) : Z := x mod 2 ^ 16.
Definition u32 (x : Z) : Z := x mod 2 ^ 32.
Definition u64 (x : Z) : Z := x mod 2 ^ 64.

Definition add32 (a b : Z) : Z := u32 (a + b).
Definition sub32 (a b : Z) : Z := u32 (a - b).
Definition sub64 (a b : Z) : Z := u64 (a - b).

Definition is_u16 (x : Z) : Prop := 0 <= x < 2 ^ 16.
Definition is_u32 (x : Z) : Prop := 0 <= x < 2 ^ 32.
Definition is_u64 (x : Z) : Prop := 0 <= x < 2 ^ 64.

(** ** Bytes *)

Definition Z_of_byte (b : byte) : Z := Z.of_N (Byte.to_N b).

Definition byte_of_Z (z : Z) : byte :=
  match Byte.of_N (Z.to_N (u8 z)) with
  | Some b => b
  | None => x00
  end.

(** ** Exceptions and the state-and-exception monad *)

Inductive exn : Type :=
| out_of_range      (* std::out_of_range *)
| invalid_argument. (* std::invalid_argument *)

Inductive result (A : Type) : Type :=
| Ok (a : A)
| Throw (e : exn).
Arguments Ok {A} a.
Arguments Throw {A} e.

(** A computation on an object of type [S]: it returns the object as it is
    left, and a value or the exception thrown. *)
Definition M (S A : Type) : Type := S -> S * result A.

Definition ret {S A : Type} (a : A) : M S A := fun s => (s, Ok a).

Definition throw {S A : Type} (e : exn) : M S A := fun s => (s, Throw e).

Definition bind {S A B : Type} (m : M S A) (k : A -> M S B) : M S B :=
  fun s =>
    match m s with
    | (s', Ok a) => k a s'
    | (s', Throw e) => (s', Throw e)
    end.

(** A read from a const collaborator: the object is untouched. *)
Definition lift {S A : Type} (r : result A) : M S A := fun s => (s, r).

(** An assignment to a member. *)
Definition assign {S : Type} (f : S -> S) : M S unit := fun s => (f s, Ok tt).

(** A method call on a member sub-object. *)
Definition zoom {S T A : Type} (get : S -> T) (set : T -> S -> S)
    (m : M T A) : M S A :=
  fun s => let '(t', r) := m (get s) in (set t' s, r).

Declare Scope peer_scope.
Delimit Scope peer_scope with peer.
Notation "x <- m ;; k" := (bind m (fun x => k))
  (at level 61, m at next level, right associativity) : peer_scope.
Notation "m ;;; k" := (bind m (fun _ => k))
  (at level 61, right associativity) : peer_scope.
Local Open Scope peer_scope.

(** ** Collaborators that are not in Peer.hpp *)

(** Modelled from the spec: [Buffer<C>] (Buffer.hpp is absent), "a
    bounds-checked buffer primitive supporting typed append and typed
    random-access read with explicit failure on overrun".  The content is the
    list of the bytes appended so far, the capacity [C] is the template
    argument.  Integers are laid out most significant byte first. *)
Module Buffer.

Definition t : Type := list byte.

Definition size (b : t) : Z := Z.of_nat (length b).

(** The [n] low bytes of [v], most significant first. *)
Fixpoint be_encode (n : nat) (v : Z) : list byte :=
  match n with
  | O => []
  | S k => be_encode k (v / 256) ++ [byte_of_Z v]
  end.

Fixpoint be_decode (acc : Z) (bs : list byte) : Z :=
  match bs with
  | [] => acc
  | x :: r => be_decode (acc * 256 + Z_of_byte x) r
  end.

(** [b[i]] *)
Definition index (b : t) (i : Z) : result byte :=
  if i <? size b then
    match nth_error b (Z.to_nat i) with
    | Some x => Ok x
    | None => Throw out_of_range
    end
  else Throw out_of_range.

(** [b.field(i,l)] *)
Definition field (b : t) (i l : Z) : result (list byte) :=
  if i + l <=? size b
  then Ok (firstn (Z.to_nat l) (skipn (Z.to_nat i) b))
  else Throw out_of_range.

(** [b.at<uint16_t>(i)] and [b.at<uint64_t>(i)] *)
Definition at_n (n : Z) (b : t) (i : Z) : result Z :=
  match field b i n with
  | Ok bs => Ok (be_decode 0 bs)
  | Throw e => Throw e
  end.
Definition at16 : t -> Z -> result Z := at_n 2.
Definition at64 : t -> Z -> result Z := at_n 8.

(** [b.append(ptr,l)]: [l] bytes from [ptr] *)
Definition append_bytes (C : Z) (data : list byte) (l : Z) : M t unit :=
  fun b =>
    if size b + l <=? C
    then (b ++ firstn (Z.to_nat l) data, Ok tt)
    else (b, Throw out_of_range).

(** [b.append((unsigned char)v)], [b.append((uint16_t)v)],
    [b.append((uint64_t)v)] *)
Definition append8 (C : Z) (v : Z) : M t unit :=
  append_bytes C (be_encode 1 v) 1.
Definition append16 (C : Z) (v : Z) : M t unit :=
  append_bytes C (be_encode 2 v) 2.
Definition append64 (C : Z) (v : Z) : M t unit :=
  append_bytes C (be_encode 8 v) 8.

End Buffer.

(** Modelled from the spec: [InetAddress] (InetAddress.hpp is absent), "a
    typed socket address value (none/IPv4/IPv6 variants, raw byte + port
    accessors, equality/zero test)". *)
Module InetAddress.

Inductive AddressType : Type := TYPE_NULL | TYPE_IPV4 | TYPE_IPV6.

Inductive t : Type :=
| Null
| IPv4 (ip : list byte) (port : Z)
| IPv6 (ip : list byte) (port : Z).

Definition type (a : t) : AddressType :=
  match a with
  | Null => TYPE_NULL
  | IPv4 _ _ => TYPE_IPV4
  | IPv6 _ _ => TYPE_IPV6
  end.

(** [operator bool]: the address is not null *)
Definition to_bool (a : t) : bool :=
  match a with
  | Null => false
  | _ => true
  end.

Definition zero (a : t) : t := Null.

Definition rawIpData (a : t) : list byte :=
  match a with
  | Null => []
  | IPv4 ip _ => ip
  | IPv6 ip _ => ip
  end.

Definition port (a : t) : Z :=
  match a with
  | Null => 0
  | IPv4 _ p => p
  | IPv6 _ p => p
  end.

(** [a.set(ipBytes,ipLen,port)] *)
Definition set (ipBytes : list byte) (ipLen : Z) (port : Z) (a : t) : t :=
  if ipLen =? 4 then IPv4 ipBytes port
  else if ipLen =? 16 then IPv6 ipBytes port
  else Null.

(** The representation invariant: 4 or 16 raw bytes, a 16-bit port. *)
Definition wf (a : t) : Prop :=
  match a with
  | Null => True
  | IPv4 ip p => length ip = 4%nat /\ is_u16 p
  | IPv6 ip p => length ip = 16%nat /\ is_u16 p
  end.

End InetAddress.

(** Modelled from the spec: [Demarc::Port] (Demarc.hpp is absent), "a local
    binding token type with an unspecified sentinel and integer round-trip
    conversion"; WanPath notes its size as uint64_t. *)
Module Demarc.
Definition Port : Type := Z.
Definition portToInt (p : Port) : Z := p.
Definition intToPort (i : Z) : Port := i.
End Demarc.

(** Constants.hpp and the numeric values of [InetAddress::AddressType] are
    absent: they are parameters of the development. *)
Class Platform : Type := {
  ZT_PEER_LINK_ACTIVITY_TIMEOUT : Z;
  type_code : InetAddress.AddressType -> Z
}.

(** The enumerators are distinct values that fit the one tag byte. *)
Definition type_codes_ok {PF : Platform} : Prop :=
  (forall t, 0 <= type_code t < 256) /\
  (forall t1 t2, type_code t1 = type_code t2 -> t1 = t2).

(** Identity.hpp is absent: the identity's own codec is an interface.
    [id_bytes i includePrivate] is what [i.serialize(b,includePrivate)]
    appends, [id_deserialize b startAt] is [i.deserialize(b,startAt)]. *)
Class IdentityCodec (Identity : Type) : Type := {
  id_bytes : Identity -> bool -> list byte;
  id_deserialize : Buffer.t -> Z -> M Identity Z
}.

(** The contract of the identity's codec: what [serialize] wrote is read back
    wherever it lies in a buffer, and its length is reported. *)
Definition id_codec_ok {Identity : Type} {IC : IdentityCodec Identity} : Prop :=
  forall (i i0 : Identity) (pre post : list byte),
    id_deserialize (pre ++ id_bytes i false ++ post) (Buffer.size pre) i0
    = (i, Ok (Buffer.size (id_bytes i false))).

(** [ZT_PEER_SERIALIZATION_VERSION] *)
Definition ZT_PEER_SERIALIZATION_VERSION : Z := 6.

(** Modelled from the spec: [ZT_PEER_SECRET_KEY_LENGTH] (Constants.hpp is
    absent), the "shared-secret byte length"; [Peer::key] documents a 256-bit
    key. *)
Definition ZT_PEER_SECRET_KEY_LENGTH : Z := 32.

(** ** class Peer::WanPath *)

Record WanPath : Type := mkWanPath {
  lastSend : Z;
  lastReceive : Z;
  lastFirewallOpener : Z;
  localPort : Demarc.Port;
  addr : InetAddress.t;
  fixed : bool
}.

Definition set_lastSend (v : Z) (w : WanPath) : WanPath :=
  mkWanPath v (lastReceive w) (lastFirewallOpener w) (localPort w) (addr w) (fixed w).
Definition set_lastReceive (v : Z) (w : WanPath) : WanPath :=
  mkWanPath (lastSend w) v (lastFirewallOpener w) (localPort w) (addr w) (fixed w).
Definition set_lastFirewallOpener (v : Z) (w : WanPath) : WanPath :=
  mkWanPath (lastSend w) (lastReceive w) v (localPort w) (addr w) (fixed w).
Definition set_localPort (v : Demarc.Port) (w : WanPath) : WanPath :=
  mkWanPath (lastSend w) (lastReceive w) (lastFirewallOpener w) v (addr w) (fixed w).
Definition set_addr (v : InetAddress.t) (w : WanPath) : WanPath :=
  mkWanPath (lastSend w) (lastReceive w) (lastFirewallOpener w) (localPort w) v (fixed w).
Definition set_fixed (v : bool) (w : WanPath) : WanPath :=
  mkWanPath (lastSend w) (lastReceive w) (lastFirewallOpener w) (localPort w) (addr w) v.

(** The ranges of the members' C++ types. *)
Definition WanPath_wf (w : WanPath) : Prop :=
  is_u64 (lastSend w) /\ is_u64 (lastReceive w) /\
  is_u64 (lastFirewallOpener w) /\ is_u64 (localPort w) /\
  InetAddress.wf (addr w).

Module WanPath_.
Section WithPlatform.
Context {PF : Platform}.

Definition isActive (w : WanPath) (now : Z) : bool :=
  InetAddress.to_bool (addr w)
  && (fixed w || (sub64 now (lastReceive w) <? ZT_PEER_LINK_ACTIVITY_TIMEOUT)).

Definition serialize (C : Z) (w : WanPath) : M Buffer.t unit :=
  Buffer.append64 C (lastSend w) ;;;
  Buffer.append64 C (lastReceive w) ;;;
  Buffer.append64 C (lastFirewallOpener w) ;;;
  Buffer.append64 C (Demarc.portToInt (localPort w)) ;;;
  Buffer.append8 C (type_code (InetAddress.type (addr w))) ;;;
  match InetAddress.type (addr w) with
  | InetAddress.TYPE_NULL => ret tt
  | InetAddress.TYPE_IPV4 =>
      Buffer.append_bytes C (InetAddress.rawIpData (addr w)) 4 ;;;
      Buffer.append16 C (InetAddress.port (addr w))
  | InetAddress.TYPE_IPV6 =>
      Buffer.append_bytes C (InetAddress.rawIpData (addr w)) 16 ;;;
      Buffer.append16 C (InetAddress.port (addr w))
  end ;;;
  Buffer.append8 C (if fixed w then 1 else 0).

(** The [switch] on the tag byte: it has no [default] case. *)
Definition deserialize_addr (b : Buffer.t) (tag : Z) (p : Z) : M WanPath Z :=
  if tag =? type_code InetAddress.TYPE_NULL then
    assign (fun w => set_addr (InetAddress.zero (addr w)) w) ;;;
    ret p
  else if tag =? type_code InetAddress.TYPE_IPV4 then
    ip <- lift (Buffer.field b p 4) ;;
    port <- lift (Buffer.at16 b (add32 p 4)) ;;
    assign (fun w => set_addr (InetAddress.set ip 4 port (addr w)) w) ;;;
    ret (add32 p (4 + 2))
  else if tag =? type_code InetAddress.TYPE_IPV6 then
    ip <- lift (Buffer.field b p 16) ;;
    port <- lift (Buffer.at16 b (add32 p 16)) ;;
    assign (fun w => set_addr (InetAddress.set ip 16 port (addr w)) w) ;;;
    ret (add32 p (16 + 2))
  else ret p.

Definition deserialize (b : Buffer.t) (startAt : Z) : M WanPath Z :=
  let p := startAt in
  v <- lift (Buffer.at64 b p) ;; assign (set_lastSend v) ;;;
  let p := add32 p 8 in
  v <- lift (Buffer.at64 b p) ;; assign (set_lastReceive v) ;;;
  let p := add32 p 8 in
  v <- lift (Buffer.at64 b p) ;; assign (set_lastFirewallOpener v) ;;;
  let p := add32 p 8 in
  v <- lift (Buffer.at64 b p) ;; assign (set_localPort (Demarc.intToPort v)) ;;;
  let p := add32 p 8 in
  tag <- lift (Buffer.index b p) ;;
  let p := add32 p 1 in
  p <- deserialize_addr b (Z_of_byte tag) p ;;
  f <- lift (Buffer.index b p) ;;
  let p := add32 p 1 in
  assign (set_fixed (negb (Z_of_byte f =? 0))) ;;;
  ret (sub32 p startAt).

End WithPlatform.
End WanPath_.

(** ** class Peer *)

Record Peer (Identity : Type) : Type := mkPeer {
  _key : list byte;
  _id : Identity;
  _ipv4p : WanPath;
  _ipv6p : WanPath;
  _lastUsed : Z;
  _lastUnicastFrame : Z;
  _lastMulticastFrame : Z;
  _lastAnnouncedTo : Z;
  _vMajor : Z;
  _vMinor : Z;
  _vRevision : Z;
  _latency : Z
}.
Arguments mkPeer {Identity}.
Arguments _key {Identity}.
Arguments _id {Identity}.
Arguments _ipv4p {Identity}.
Arguments _ipv6p {Identity}.
Arguments _lastUsed {Identity}.
Arguments _lastUnicastFrame {Identity}.
Arguments _lastMulticastFrame {Identity}.
Arguments _lastAnnouncedTo {Identity}.
Arguments _vMajor {Identity}.
Arguments _vMinor {Identity}.
Arguments _vRevision {Identity}.
Arguments _latency {Identity}.

Section PeerSetters.
Context {Identity : Type}.

Definition set_key (v : list byte) (x : Peer Identity) : Peer Identity :=
  mkPeer v (_id x) (_ipv4p x) (_ipv6p x) (_lastUsed x) (_lastUnicastFrame x)
    (_lastMulticastFrame x) (_lastAnnouncedTo x) (_vMajor x) (_vMinor x)
    (_vRevision x) (_latency x).
Definition set_id (v : Identity) (x : Peer Identity) : Peer Identity :=
  mkPeer (_key x) v (_ipv4p x) (_ipv6p x) (_lastUsed x) (_lastUnicastFrame x)
    (_lastMulticastFrame x) (_lastAnnouncedTo x) (_vMajor x) (_vMinor x)
    (_vRevision x) (_latency x).
Definition set_ipv4p (v : WanPath) (x : Peer Identity) : Peer Identity :=
  mkPeer (_key x) (_id x) v (_ipv6p x) (_lastUsed x) (_lastUnicastFrame x)
    (_lastMulticastFrame x) (_lastAnnouncedTo x) (_vMajor x) (_vMinor x)
    (_vRevision x) (_latency x).
Definition set_ipv6p (v : WanPath) (x : Peer Identity) : Peer Identity :=
  mkPeer (_key x) (_id x) (_ipv4p x) v (_lastUsed x) (_lastUnicastFrame x)
    (_lastMulticastFrame x) (_lastAnnouncedTo x) (_vMajor x) (_vMinor x)
    (_vRevision x) (_latency x).
Definition set_lastUsed (v : Z) (x : Peer Identity) : Peer Identity :=
  mkPeer (_key x) (_id x) (_ipv4p x) (_ipv6p x) v (_lastUnicastFrame x)
    (_lastMulticastFrame x) (_lastAnnouncedTo x) (_vMajor x) (_vMinor x)
    (_vRevision x) (_latency x).
Definition set_lastUnicastFrame (v : Z) (x : Peer Identity) : Peer Identity :=
  mkPeer (_key x) (_id x) (_ipv4p x) (_ipv6p x) (_lastUsed x) v
    (_lastMulticastFrame x) (_lastAnnouncedTo x) (_vMajor x) (_vMinor x)
    (_vRevision x) (_latency x).
Definition set_lastMulticastFrame (v : Z) (x : Peer Identity) : Peer Identity :=
  mkPeer (_key x) (_id x) (_ipv4p x) (_ipv6p x) (_lastUsed x)
    (_lastUnicastFrame x) v (_lastAnnouncedTo x) (_vMajor x) (_vMinor x)
    (_vRevision x) (_latency x).
Definition set_lastAnnouncedTo (v : Z) (x : Peer Identity) : Peer Identity :=
  mkPeer (_key x) (_id x) (_ipv4p x) (_ipv6p x) (_lastUsed x)
    (_lastUnicastFrame x) (_lastMulticastFrame x) v (_vMajor x) (_vMinor x)
    (_vRevision x) (_latency x).
Definition set_vMajor (v : Z) (x : Peer Identity) : Peer Identity :=
  mkPeer (_key x) (_id x) (_ipv4p x) (_ipv6p x) (_lastUsed x)
    (_lastUnicastFrame x) (_lastMulticastFrame x) (_lastAnnouncedTo x) v
    (_vMinor x) (_vRevision x) (_latency x).
Definition set_vMinor (v : Z) (x : Peer Identity) : Peer Identity :=
  mkPeer (_key x) (_id x) (_ipv4p x) (_ipv6p x) (_lastUsed x)
    (_lastUnicastFrame x) (_lastMulticastFrame x) (_lastAnnouncedTo x)
    (_vMajor x) v (_vRevision x) (_latency x).
Definition set_vRevision (v : Z) (x : Peer Identity) : Peer Identity :=
  mkPeer (_key x) (_id x) (_ipv4p x) (_ipv6p x) (_lastUsed x)
    (_lastUnicastFrame x) (_lastMulticastFrame x) (_lastAnnouncedTo x)
    (_vMajor x) (_vMinor x) v (_latency x).
Definition set_latency (v : Z) (x : Peer Identity) : Peer Identity :=
  mkPeer (_key x) (_id x) (_ipv4p x) (_ipv6p x) (_lastUsed x)
    (_lastUnicastFrame x) (_lastMulticastFrame x) (_lastAnnouncedTo x)
    (_vMajor x) (_vMinor x) (_vRevision x) v.

(** The ranges of the members' C++ types: a key array of
    [ZT_PEER_SECRET_KEY_LENGTH] bytes, 64-bit timestamps, [unsigned int]
    version components and latency. *)
Definition Peer_wf (x : Peer Identity) : Prop :=
  Buffer.size (_key x) = ZT_PEER_SECRET_KEY_LENGTH /\
  WanPath_wf (_ipv4p x) /\ WanPath_wf (_ipv6p x) /\
  is_u64 (_lastUsed x) /\ is_u64 (_lastUnicastFrame x) /\
  is_u64 (_lastMulticastFrame x) /\ is_u64 (_lastAnnouncedTo x) /\
  is_u32 (_vMajor x) /\ is_u32 (_vMinor x) /\ is_u32 (_vRevision x) /\
  is_u32 (_latency x).

End PeerSetters.

Module Peer_.
Section WithCollaborators.
Context {PF : Platform} {Identity : Type} {IC : IdentityCodec Identity}.

Definition lastUsed (x : Peer Identity) : Z := _lastUsed x.

Definition setLastUsed (now : Z) (x : Peer Identity) : Peer Identity := set_lastUsed now x.

Definition identity (x : Peer Identity) : Identity := _id x.

Definition lastFirewallOpener (x : Peer Identity) : Z :=
  Z.max (lastFirewallOpener (_ipv4p x)) (lastFirewallOpener (_ipv6p x)).

Definition lastDirectReceive (x : Peer Identity) : Z :=
  Z.max (lastReceive (_ipv4p x)) (lastReceive (_ipv6p x)).

Definition lastDirectSend (x : Peer Identity) : Z :=
  Z.max (lastSend (_ipv4p x)) (lastSend (_ipv6p x)).

Definition lastFrame (x : Peer Identity) : Z :=
  Z.max (_lastUnicastFrame x) (_lastMulticastFrame x).

Definition latency (x : Peer Identity) : Z :=
  let l := _latency x in
  Z.min l 65535.

Definition addDirectLatencyMeasurment (l : Z) (x : Peer Identity) : Peer Identity :=
  let l := if l >? 65535 then 65535 else l in
  let ol := _latency x in
  if (ol >? 0) && (ol <? 10000)
  then set_latency (u32 (ol + l) / 2) x
  else set_latency l x.

Definition hasDirectPath (x : Peer Identity) : bool :=
  InetAddress.to_bool (addr (_ipv4p x)) || InetAddress.to_bool (addr (_ipv6p x)).

Definition hasActiveDirectPath (x : Peer Identity) (now : Z) : bool :=
  WanPath_.isActive (_ipv4p x) now || WanPath_.isActive (_ipv6p x) now.

Definition ipv4Path (x : Peer Identity) : InetAddress.t := addr (_ipv4p x).

Definition ipv6Path (x : Peer Identity) : InetAddress.t := addr (_ipv4p x).

Definition ipv4ActivePath (x : Peer Identity) (now : Z) : InetAddress.t :=
  if WanPath_.isActive (_ipv4p x) now then addr (_ipv4p x)
  else InetAddress.Null.

Definition ipv6ActivePath (x : Peer Identity) (now : Z) : InetAddress.t :=
  if WanPath_.isActive (_ipv6p x) now then addr (_ipv6p x)
  else InetAddress.Null.

Definition forgetDirectPaths (fixedToo : bool) (x : Peer Identity) : Peer Identity :=
  let x :=
    if fixedToo || negb (fixed (_ipv4p x))
    then set_ipv4p (set_addr (InetAddress.zero (addr (_ipv4p x))) (_ipv4p x)) x
    else x in
  if fixedToo || negb (fixed (_ipv6p x))
  then set_ipv6p (set_addr (InetAddress.zero (addr (_ipv6p x))) (_ipv6p x)) x
  else x.

Definition key (x : Peer Identity) : list byte := _key x.

Definition setRemoteVersion (vmaj vmin vrev : Z) (x : Peer Identity) : Peer Identity :=
  set_vRevision vrev (set_vMinor vmin (set_vMajor vmaj x)).

Definition findCommonGround (a b : Peer Identity) (now : Z)
    : InetAddress.t * InetAddress.t :=
  if WanPath_.isActive (_ipv6p a) now && WanPath_.isActive (_ipv6p b) now
  then (addr (_ipv6p b), addr (_ipv6p a))
  else if WanPath_.isActive (_ipv4p a) now && WanPath_.isActive (_ipv4p b) now
  then (addr (_ipv4p b), addr (_ipv4p a))
  else if InetAddress.to_bool (addr (_ipv6p a))
          && InetAddress.to_bool (addr (_ipv6p b))
  then (addr (_ipv6p b), addr (_ipv6p a))
  else if InetAddress.to_bool (addr (_ipv4p a))
          && InetAddress.to_bool (addr (_ipv4p b))
  then (addr (_ipv4p b), addr (_ipv4p a))
  else (InetAddress.Null, InetAddress.Null).

Definition serialize (C : Z) (x : Peer Identity) : M Buffer.t unit :=
  Buffer.append8 C ZT_PEER_SERIALIZATION_VERSION ;;;
  Buffer.append_bytes C (_key x) ZT_PEER_SECRET_KEY_LENGTH ;;;
  Buffer.append_bytes C (id_bytes (_id x) false)
    (Buffer.size (id_bytes (_id x) false)) ;;;
  WanPath_.serialize C (_ipv4p x) ;;;
  WanPath_.serialize C (_ipv6p x) ;;;
  Buffer.append64 C (_lastUsed x) ;;;
  Buffer.append64 C (_lastUnicastFrame x) ;;;
  Buffer.append64 C (_lastMulticastFrame x) ;;;
  Buffer.append64 C (_lastAnnouncedTo x) ;;;
  Buffer.append16 C (_vMajor x) ;;;
  Buffer.append16 C (_vMinor x) ;;;
  Buffer.append16 C (_vRevision x) ;;;
  Buffer.append16 C (_latency x).

Definition deserialize (b : Buffer.t) (startAt : Z) : M (Peer Identity) Z :=
  let p := startAt in
  ver <- lift (Buffer.index b p) ;;
  let p := add32 p 1 in
  if negb (Z_of_byte ver =? ZT_PEER_SERIALIZATION_VERSION)
  then throw invalid_argument
  else
    k <- lift (Buffer.field b p ZT_PEER_SECRET_KEY_LENGTH) ;;
    assign (set_key k) ;;;
    let p := add32 p ZT_PEER_SECRET_KEY_LENGTH in
    n <- zoom _id set_id (id_deserialize b p) ;;
    let p := add32 p n in
    n <- zoom _ipv4p set_ipv4p (WanPath_.deserialize b p) ;;
    let p := add32 p n in
    n <- zoom _ipv6p set_ipv6p (WanPath_.deserialize b p) ;;
    let p := add32 p n in
    v <- lift (Buffer.at64 b p) ;; assign (set_lastUsed v) ;;;
    let p := add32 p 8 in
    v <- lift (Buffer.at64 b p) ;; assign (set_lastUnicastFrame v) ;;;
    let p := add32 p 8 in
    v <- lift (Buffer.at64 b p) ;; assign (set_lastMulticastFrame v) ;;;
    let p := add32 p 8 in
    v <- lift (Buffer.at64 b p) ;; assign (set_lastAnnouncedTo v) ;;;
    let p := add32 p 8 in
    v <- lift (Buffer.at16 b p) ;; assign (set_vMajor v) ;;;
    let p := add32 p 2 in
    v <- lift (Buffer.at16 b p) ;; assign (set_vMinor v) ;;;
    let p := add32 p 2 in
    v <- lift (Buffer.at16 b p) ;; assign (set_vRevision v) ;;;
    let p := add32 p 2 in
    v <- lift (Buffer.at16 b p) ;; assign (set_latency v) ;;;
    let p := add32 p 2 in
    ret (sub32 p startAt).

End WithCollaborators.
End Peer_.


(** ** The bytes of an encoding

    What [serialize] appends when no append runs over the capacity, and where
    a field lies in a buffer: the statements about the codec are written with
    these. *)

Definition addr_payload (a : InetAddress.t) : list byte :=
  match InetAddress.type a with
  | InetAddress.TYPE_NULL => []
  | InetAddress.TYPE_IPV4 =>
      firstn 4 (InetAddress.rawIpData a)
      ++ Buffer.be_encode 2 (InetAddress.port a)
  | InetAddress.TYPE_IPV6 =>
      firstn 16 (InetAddress.rawIpData a)
      ++ Buffer.be_encode 2 (InetAddress.port a)
  end.

Definition WanPath_bytes {PF : Platform} (w : WanPath) : list byte :=
  Buffer.be_encode 8 (lastSend w)
  ++ Buffer.be_encode 8 (lastReceive w)
  ++ Buffer.be_encode 8 (lastFirewallOpener w)
  ++ Buffer.be_encode 8 (Demarc.portToInt (localPort w))
  ++ Buffer.be_encode 1 (type_code (InetAddress.type (addr w)))
  ++ addr_payload (addr w)
  ++ Buffer.be_encode 1 (if fixed w then 1 else 0).

Definition Peer_bytes {PF : Platform} {Identity : Type}
    {IC : IdentityCodec Identity} (x : Peer Identity) : list byte :=
  Buffer.be_encode 1 ZT_PEER_SERIALIZATION_VERSION
  ++ firstn (Z.to_nat ZT_PEER_SECRET_KEY_LENGTH) (_key x)
  ++ id_bytes (_id x) false
  ++ WanPath_bytes (_ipv4p x)
  ++ WanPath_bytes (_ipv6p x)
  ++ Buffer.be_encode 8 (_lastUsed x)
  ++ Buffer.be_encode 8 (_lastUnicastFrame x)
  ++ Buffer.be_encode 8 (_lastMulticastFrame x)
  ++ Buffer.be_encode 8 (_lastAnnouncedTo x)
  ++ Buffer.be_encode 2 (_vMajor x)
  ++ Buffer.be_encode 2 (_vMinor x)
  ++ Buffer.be_encode 2 (_vRevision x)
  ++ Buffer.be_encode 2 (_latency x).

(** The suffix [r] of the buffer [b] starts at position [p]. *)
Definition suffix_at (b : Buffer.t) (p : Z) (r : list byte) : Prop :=
  exists pre : list byte, b = pre ++ r /\ p = Buffer.size pre.

(** The record as a 16-bit field of the encoding holds it: its version
    components and latency reduced modulo 2^16. *)
Definition narrow16 {Identity : Type} (x : Peer Identity) : Peer Identity :=
  mkPeer (_key x) (_id x) (_ipv4p x) (_ipv6p x) (_lastUsed x)
    (_lastUnicastFrame x) (_lastMulticastFrame x) (_lastAnnouncedTo x)
    (u16 (_vMajor x)) (u16 (_vMinor x)) (u16 (_vRevision x)) (u16 (_latency x)).

(** The clamp of a sample to [0,65535]. *)
Definition clamp16 (l : Z) : Z := Z.max 0 (Z.min l 65535).


(** ** Concrete collaborators and records *)

Module Examples.

(** A platform: an activity timeout of 241 s in milliseconds, and the tag
    values 0, 2 and 10 for the three address types. *)
Definition platform : Platform :=
  {| ZT_PEER_LINK_ACTIVITY_TIMEOUT := 241000;
     type_code := fun t =>
       match t with
       | InetAddress.TYPE_NULL => 0
       | InetAddress.TYPE_IPV4 => 2
       | InetAddress.TYPE_IPV6 => 10
       end |}.

(** An identity codec over one-byte identities. *)
Definition byte_identity : IdentityCodec byte :=
  {| id_bytes := fun i _ => [i];
     id_deserialize := fun b startAt i0 =>
       match Buffer.index b startAt with
       | Ok x => (x, Ok 1)
       | Throw e => (i0, Throw e)
       end |}.

Definition ip4 : InetAddress.t :=
  InetAddress.IPv4 [x0a; x00; x00; x01] 9993.

Definition ip4' : InetAddress.t :=
  InetAddress.IPv4 [xc0; xa8; x01; x02] 40000.

Definition ip6 : InetAddress.t :=
  InetAddress.IPv6
    [x20; x01; x0d; xb8; x00; x00; x00; x00;
     x00; x00; x00; x00; x00; x00; x00; x01] 9993.

Definition ip6' : InetAddress.t :=
  InetAddress.IPv6
    [xfd; x00; x00; x00; x00; x00; x00; x00;
     x00; x00; x00; x00; x00; x00; x00; x02] 9994.

Definition key0 : list byte := repeat x5a 32.

(** A peer with a learned IPv4 path, a pinned IPv6 path and a known version. *)
Definition alice : Peer byte :=
  mkPeer key0 x41
    (mkWanPath 1000 2000 500 7 ip4 false)
    (mkWanPath 1100 1500 0 8 ip6 true)
    3000 2500 2600 2700 1 0 4 120.

(** A peer with only an IPv4 path. *)
Definition bob : Peer byte :=
  mkPeer key0 x42
    (mkWanPath 10 20 5 7 ip4' false)
    (mkWanPath 0 0 0 0 InetAddress.Null false)
    30 25 26 27 0 0 0 0.

(** A peer with both paths learned. *)
Definition carol : Peer byte :=
  mkPeer key0 x43
    (mkWanPath 1000 2000 500 7 ip4' false)
    (mkWanPath 1100 2100 0 8 ip6' false)
    3000 2500 2600 2700 1 2 3 0.

(** A record with no path, no version and every counter at zero. *)
Definition fresh : Peer byte :=
  mkPeer (repeat x00 32) x00
    (mkWanPath 0 0 0 0 InetAddress.Null false)
    (mkWanPath 0 0 0 0 InetAddress.Null false)
    0 0 0 0 0 0 0 0.

(** [alice] after [setRemoteVersion(70000,0,4)]. *)
Definition alice_v70000 : Peer byte :=
  Peer_.setRemoteVersion 70000 0 4 alice.

(** What [serialize], with capacity 1000, makes of a buffer of one byte for
    [alice]. *)
Definition alice_encoding : Buffer.t :=
  fst (Peer_.serialize (PF := platform) (IC := byte_identity) 1000 alice [x00]).

(** A path block with the local port 42, the tag byte 7 and a flag byte 1. *)
Definition odd_tag_block : Buffer.t :=
  repeat x00 24 ++ [x00; x00; x00; x00; x00; x00; x00; x2a] ++ [x07; x01].

End Examples.


(** ** Vocabulary of the further properties *)

(** The number of payload bytes that [WanPath::deserialize] consumes after a
    tag byte of value [tag]: the [switch] of the code, read for its effect on
    the position. *)
Definition payload_length {PF : Platform} (tag : Z) : Z :=
  if tag =? type_code InetAddress.TYPE_NULL then 0
  else if tag =? type_code InetAddress.TYPE_IPV4 then 4 + 2
  else if tag =? type_code InetAddress.TYPE_IPV6 then 16 + 2
  else 0.

(** The action [m] on a buffer of capacity [C] writes [bytes]: on a buffer
    within its capacity it appends them all when they fit, and otherwise
    throws [std::out_of_range] having appended a prefix of them that still
    fits. *)
Definition writes (C : Z) (m : M Buffer.t unit) (bytes : list byte) : Prop :=
  forall b : Buffer.t,
    Buffer.size b <= C ->
    (Buffer.size b + Buffer.size bytes <= C ->
     m b = (b ++ bytes, Ok tt))
    /\ (C < Buffer.size b + Buffer.size bytes ->
        exists t u : list byte,
          bytes = t ++ u /\ Buffer.size b + Buffer.size t <= C
          /\ m b = (b ++ t, Throw out_of_range)).

(** The members of an encoding: the byte runs of the successive [append]
    calls of [serialize], in order; the identity's bytes are one member. *)
Definition addr_chunks (a : InetAddress.t) : list (list byte) :=
  match InetAddress.type a with
  | InetAddress.TYPE_NULL => []
  | InetAddress.TYPE_IPV4 =>
      [firstn 4 (InetAddress.rawIpData a);
       Buffer.be_encode 2 (InetAddress.port a)]
  | InetAddress.TYPE_IPV6 =>
      [firstn 16 (InetAddress.rawIpData a);
       Buffer.be_encode 2 (InetAddress.port a)]
  end.

Definition WanPath_chunks {PF : Platform} (w : WanPath) : list (list byte) :=
  Buffer.be_encode 8 (lastSend w)
  :: Buffer.be_encode 8 (lastReceive w)
  :: Buffer.be_encode 8 (lastFirewallOpener w)
  :: Buffer.be_encode 8 (Demarc.portToInt (localPort w))
  :: Buffer.be_encode 1 (type_code (InetAddress.type (addr w)))
  :: (addr_chunks (addr w)
      ++ [Buffer.be_encode 1 (if fixed w then 1 else 0)]).

Definition Peer_chunks {PF : Platform} {Identity : Type}
    {IC : IdentityCodec Identity} (x : Peer Identity) : list (list byte) :=
  Buffer.be_encode 1 ZT_PEER_SERIALIZATION_VERSION
  :: firstn (Z.to_nat ZT_PEER_SECRET_KEY_LENGTH) (_key x)
  :: id_bytes (_id x) false
  :: (WanPath_chunks (_ipv4p x)
      ++ WanPath_chunks (_ipv6p x)
      ++ [Buffer.be_encode 8 (_lastUsed x);
          Buffer.be_encode 8 (_lastUnicastFrame x);
          Buffer.be_encode 8 (_lastMulticastFrame x);
          Buffer.be_encode 8 (_lastAnnouncedTo x);
          Buffer.be_encode 2 (_vMajor x);
          Buffer.be_encode 2 (_vMinor x);
          Buffer.be_encode 2 (_vRevision x);
          Buffer.be_encode 2 (_latency x)]).

(** The action [m] on a buffer of capacity [C] writes the members [chunks]
    one after the other: on a buffer within its capacity it appends them all
    when they fit, and otherwise throws [std::out_of_range] at the first
    member [c] that does not fit in what is left, having appended exactly
    the members [done] before it. *)
Definition writes_members (C : Z) (m : M Buffer.t unit)
    (chunks : list (list byte)) : Prop :=
  forall b : Buffer.t,
    Buffer.size b <= C ->
    (Buffer.size b + Buffer.size (concat chunks) <= C ->
     m b = (b ++ concat chunks, Ok tt))
    /\ (C < Buffer.size b + Buffer.size (concat chunks) ->
        exists (done : list (list byte)) (c : list byte)
               (rest : list (list byte)),
          chunks = done ++ c :: rest
          /\ Buffer.size b + Buffer.size (concat done) <= C
          /\ C < Buffer.size b + Buffer.size (concat done) + Buffer.size c
          /\ m b = (b ++ concat done, Throw out_of_range)).

Module MoreExamples.

(** The version byte and two more bytes: too short for the key. *)
Definition short_record : Buffer.t := [x06; x00; x00].

(** The four 64-bit members of a path block and nothing after them. *)
Definition block_without_tag : Buffer.t :=
  repeat x00 24 ++ [x00; x00; x00; x00; x00; x00; x00; x2a].

(** What [WanPath::serialize], with capacity 100, makes of an empty buffer
    for the IPv4 path of [alice]. *)
Definition alice_ipv4_block : Buffer.t :=
  fst (WanPath_.serialize (PF := Examples.platform) 100
         (_ipv4p Examples.alice) []).

(** What [serialize], with capacity 1000, makes of an empty buffer for
    [alice]. *)
Definition alice_alone : Buffer.t :=
  fst (Peer_.serialize (PF := Examples.platform)
         (IC := Examples.byte_identity) 1000 Examples.alice []).

(** [alice] and then [bob], serialized one after the other. *)
Definition alice_then_bob : Buffer.t :=
  fst (Peer_.serialize (PF := Examples.platform)
         (IC := Examples.byte_identity) 1000 Examples.bob alice_alone).

(** Two peers whose IPv4 paths were heard from shortly before 300000 and
    whose IPv6 paths were last heard from long before; no path is fixed. *)
Definition dave : Peer byte :=
  mkPeer Examples.key0 x44
    (mkWanPath 289000 290000 500 7 Examples.ip4 false)
    (mkWanPath 0 0 0 8 Examples.ip6 false)
    290000 2500 2600 2700 1 0 4 0.

Definition erin : Peer byte :=
  mkPeer Examples.key0 x45
    (mkWanPath 294000 295000 500 7 Examples.ip4' false)
    (mkWanPath 50 100 0 8 Examples.ip6' false)
    295000 2500 2600 2700 1 0 4 0.

(** [alice] after [setRemoteVersion(4464,0,4)]. *)
Definition alice_v4464 : Peer byte :=
  Peer_.setRemoteVersion 4464 0 4 Examples.alice.

(** What [serialize], with capacity 1000, makes of an empty buffer for
    [alice] with the major version 70000. *)
Definition alice_v70000_encoding : Buffer.t :=
  fst (Peer_.serialize (PF := Examples.platform)
         (IC := Examples.byte_identity) 1000 Examples.alice_v70000 []).

(** A learned IPv4 path whose receive time is the largest 64-bit value. *)
Definition wrapped_path : WanPath :=
  mkWanPath 0 (2 ^ 64 - 1) 0 7 Examples.ip4 false.

End MoreExamples.

(** * Path activity *)

Section PathActivity.
Context {PF : Platform}.

Lemma sub64_past (now lr : Z) :
  is_u64 now -> is_u64 lr -> lr <= now -> sub64 now lr = now - lr.
Proof.
  unfold is_u64, sub64, u64; intros Hn Hl Hle.
  apply Z.mod_small; lia.
Qed.

Lemma sub64_future (now lr : Z) :
  is_u64 now -> is_u64 lr -> now < lr -> sub64 now lr = 2 ^ 64 - (lr - now).
Proof.
  unfold is_u64, sub64, u64; intros Hn Hl Hlt.
  replace (now - lr) with (2 ^ 64 - (lr - now) + (-1) * 2 ^ 64) by ring.
  rewrite Z.mod_add by lia.
  apply Z.mod_small; lia.
Qed.

Lemma isActive_true_iff (w : WanPath) (now : Z) :
  WanPath_.isActive w now = true <->
  InetAddress.to_bool (addr w) = true /\
  (fixed w = true \/ sub64 now (lastReceive w) < ZT_PEER_LINK_ACTIVITY_TIMEOUT).
Proof.
  unfold WanPath_.isActive.
  rewrite andb_true_iff, orb_true_iff, Z.ltb_lt.
  reflexivity.
Qed.

(** C5: [isActive(now)] is true exactly when the address is non-null and the
    path is fixed or [now - lastReceive], the unsigned 64-bit difference the
    code computes (the plain difference whenever [lastReceive <= now]), is
    below [ZT_PEER_LINK_ACTIVITY_TIMEOUT].  A fixed path with a non-null
    address is active at every [now], whatever [lastReceive] is; a path that
    is not fixed is inactive when [now - lastReceive] equals the timeout, and
    beyond. *)
Theorem isActive_spec (w : WanPath) (now : Z) :
  is_u64 now -> is_u64 (lastReceive w) ->
  (WanPath_.isActive w now = true <->
   InetAddress.to_bool (addr w) = true /\
   (fixed w = true \/
    sub64 now (lastReceive w) < ZT_PEER_LINK_ACTIVITY_TIMEOUT))
  /\ (lastReceive w <= now ->
      sub64 now (lastReceive w) = now - lastReceive w)
  /\ (InetAddress.to_bool (addr w) = true -> fixed w = true ->
      WanPath_.isActive w now = true)
  /\ (fixed w = false ->
      now - lastReceive w = ZT_PEER_LINK_ACTIVITY_TIMEOUT ->
      WanPath_.isActive w now = false)
  /\ (fixed w = false ->
      now - lastReceive w >= ZT_PEER_LINK_ACTIVITY_TIMEOUT ->
      WanPath_.isActive w now = false).
Proof.
  intros Hn Hl.
  assert (Hbeyond : fixed w = false ->
                    now - lastReceive w >= ZT_PEER_LINK_ACTIVITY_TIMEOUT ->
                    WanPath_.isActive w now = false).
  { intros Hf Hge.
    apply not_true_is_false; intro Hact.
    apply isActive_true_iff in Hact.
    destruct Hact as [_ [Hfix | Hlt]]; [congruence|].
    destruct (Z_le_gt_dec (lastReceive w) now) as [Hle | Hgt].
    - rewrite sub64_past in Hlt by assumption. lia.
    - rewrite sub64_future in Hlt by (assumption || lia).
      unfold is_u64 in *. lia. }
  split; [apply isActive_true_iff|].
  split; [intro Hle; apply sub64_past; assumption|].
  split.
  - intros Ha Hf. apply isActive_true_iff. auto.
  - split; [|exact Hbeyond].
    intros Hf Heq. apply Hbeyond; [assumption | lia].
Qed.

(** C9: the age is the difference modulo 2^64.  For a path that is not fixed
    and whose [lastReceive] lies after [now], the age is
    [2^64 - (lastReceive - now)], and [isActive(now)] is false whenever
    [lastReceive - now <= 2^64 - ZT_PEER_LINK_ACTIVITY_TIMEOUT]: within that
    bound a receive time in the future does not make the path active. *)
Theorem isActive_future_lastReceive (w : WanPath) (now : Z) :
  is_u64 now -> is_u64 (lastReceive w) ->
  fixed w = false ->
  now < lastReceive w ->
  lastReceive w - now <= 2 ^ 64 - ZT_PEER_LINK_ACTIVITY_TIMEOUT ->
  sub64 now (lastReceive w) = (now - lastReceive w) mod 2 ^ 64
  /\ sub64 now (lastReceive w) = 2 ^ 64 - (lastReceive w - now)
  /\ WanPath_.isActive w now = false.
Proof.
  intros Hn Hl Hf Hlt Hbound.
  split; [reflexivity|].
  split; [apply sub64_future; assumption|].
  apply not_true_is_false; intro Hact.
  apply isActive_true_iff in Hact.
  destruct Hact as [_ [Hfix | Hage]]; [congruence|].
  rewrite sub64_future in Hage by assumption.
  lia.
Qed.

(** Beyond that bound the age has wrapped to less than the timeout, and the
    path counts as active. *)
Lemma isActive_future_wrapped (w : WanPath) (now : Z) :
  is_u64 now -> is_u64 (lastReceive w) ->
  InetAddress.to_bool (addr w) = true ->
  now < lastReceive w ->
  2 ^ 64 - ZT_PEER_LINK_ACTIVITY_TIMEOUT < lastReceive w - now ->
  WanPath_.isActive w now = true.
Proof.
  intros Hn Hl Ha Hlt Hwrap.
  apply isActive_true_iff. split; [assumption|].
  right. rewrite sub64_future by assumption. lia.
Qed.

End PathActivity.


(** * Rendezvous pairing, latency, path forgetting and the accessors *)

Section PeerOperations.
Context {PF : Platform} {Identity : Type}.

(** C1: [findCommonGround] tries five cases in order and the first that
    applies gives the result: both IPv6 paths active, both IPv4 paths active,
    both IPv6 addresses non-null, both IPv4 addresses non-null, and otherwise
    two null addresses; each pair is (B's address, A's address).  When all
    four paths are active the IPv6 pair is the result. *)
Theorem findCommonGround_cases (a b : Peer Identity) (now : Z) :
  let active6 :=
    WanPath_.isActive (_ipv6p a) now && WanPath_.isActive (_ipv6p b) now in
  let active4 :=
    WanPath_.isActive (_ipv4p a) now && WanPath_.isActive (_ipv4p b) now in
  let known6 :=
    InetAddress.to_bool (addr (_ipv6p a))
    && InetAddress.to_bool (addr (_ipv6p b)) in
  let known4 :=
    InetAddress.to_bool (addr (_ipv4p a))
    && InetAddress.to_bool (addr (_ipv4p b)) in
  (active6 = true ->
   Peer_.findCommonGround a b now = (addr (_ipv6p b), addr (_ipv6p a)))
  /\ (active6 = false -> active4 = true ->
      Peer_.findCommonGround a b now = (addr (_ipv4p b), addr (_ipv4p a)))
  /\ (active6 = false -> active4 = false -> known6 = true ->
      Peer_.findCommonGround a b now = (addr (_ipv6p b), addr (_ipv6p a)))
  /\ (active6 = false -> active4 = false -> known6 = false ->
      known4 = true ->
      Peer_.findCommonGround a b now = (addr (_ipv4p b), addr (_ipv4p a)))
  /\ (active6 = false -> active4 = false -> known6 = false ->
      known4 = false ->
      Peer_.findCommonGround a b now = (InetAddress.Null, InetAddress.Null))
  /\ (active4 = true -> active6 = true ->
      Peer_.findCommonGround a b now = (addr (_ipv6p b), addr (_ipv6p a))).
Proof.
  intros active6 active4 known6 known4.
  unfold Peer_.findCommonGround.
  fold active6 active4 known6 known4.
  repeat split; intros;
    repeat match goal with
           | H : ?c = _ |- context [if ?c then _ else _] => rewrite H
           end;
    reflexivity.
Qed.

(** C2: exchanging the two peers exchanges the two addresses of the result,
    whatever the state of the four paths; and the result is a function of
    the peers' two path records and of [now] alone. *)
Theorem findCommonGround_swap (a b : Peer Identity) (now : Z) :
  Peer_.findCommonGround b a now
  = (snd (Peer_.findCommonGround a b now),
     fst (Peer_.findCommonGround a b now))
  /\ (forall a' b' : Peer Identity,
        _ipv4p a' = _ipv4p a -> _ipv6p a' = _ipv6p a ->
        _ipv4p b' = _ipv4p b -> _ipv6p b' = _ipv6p b ->
        Peer_.findCommonGround a' b' now = Peer_.findCommonGround a b now).
Proof.
  split.
  - unfold Peer_.findCommonGround.
    rewrite (andb_comm (WanPath_.isActive (_ipv6p b) now)).
    rewrite (andb_comm (WanPath_.isActive (_ipv4p b) now)).
    rewrite (andb_comm (InetAddress.to_bool (addr (_ipv6p b)))).
    rewrite (andb_comm (InetAddress.to_bool (addr (_ipv4p b)))).
    destruct (WanPath_.isActive (_ipv6p a) now
              && WanPath_.isActive (_ipv6p b) now); [reflexivity|].
    destruct (WanPath_.isActive (_ipv4p a) now
              && WanPath_.isActive (_ipv4p b) now); [reflexivity|].
    destruct (InetAddress.to_bool (addr (_ipv6p a))
              && InetAddress.to_bool (addr (_ipv6p b))); [reflexivity|].
    destruct (InetAddress.to_bool (addr (_ipv4p a))
              && InetAddress.to_bool (addr (_ipv4p b))); reflexivity.
  - intros a' b' Ha4 Ha6 Hb4 Hb6.
    unfold Peer_.findCommonGround.
    rewrite Ha4, Ha6, Hb4, Hb6. reflexivity.
Qed.

Lemma clamp16_u32 (l : Z) :
  is_u32 l -> (if l >? 65535 then 65535 else l) = clamp16 l.
Proof.
  unfold is_u32, clamp16; intros Hl.
  destruct (Z.gtb_spec l 65535); lia.
Qed.

(** C6: [addDirectLatencyMeasurment(l)] clamps [l] to [0,65535]; a stored
    estimate strictly between 0 and 10000 is replaced by the mean (in
    unsigned integer arithmetic) of the estimate and the clamped sample, any
    other estimate by the clamped sample.  From 0, the samples 100 and 200
    leave 150, and the sample 70000 leaves 65535.  [latency()] is the stored
    estimate clamped to [0,65535]. *)
Theorem addDirectLatencyMeasurment_spec (l : Z) (x : Peer Identity) :
  is_u32 l -> is_u32 (_latency x) ->
  0 <= clamp16 l <= 65535
  /\ (0 < _latency x < 10000 ->
      _latency (Peer_.addDirectLatencyMeasurment l x)
      = (_latency x + clamp16 l) / 2)
  /\ (~ 0 < _latency x < 10000 ->
      _latency (Peer_.addDirectLatencyMeasurment l x) = clamp16 l)
  /\ (_latency x = 0 ->
      _latency (Peer_.addDirectLatencyMeasurment 200
                  (Peer_.addDirectLatencyMeasurment 100 x)) = 150
      /\ _latency (Peer_.addDirectLatencyMeasurment 70000 x) = 65535)
  /\ Peer_.latency x = clamp16 (_latency x).
Proof.
  intros Hl Hol.
  split; [unfold clamp16; lia|].
  unfold Peer_.addDirectLatencyMeasurment.
  rewrite (clamp16_u32 l Hl).
  split; [|split; [|split]].
  - intros Hin.
    replace ((_latency x >? 0) && (_latency x <? 10000)) with true
      by (symmetry; apply andb_true_iff; split;
          [apply Z.gtb_lt | apply Z.ltb_lt]; lia).
    cbn. f_equal. unfold u32. apply Z.mod_small. unfold clamp16. lia.
  - intros Hout.
    replace ((_latency x >? 0) && (_latency x <? 10000)) with false.
    + reflexivity.
    + symmetry. apply not_true_is_false. intro H.
      apply andb_true_iff in H. destruct H as [H1 H2].
      apply Z.gtb_lt in H1. apply Z.ltb_lt in H2. lia.
  - intros H0. rewrite H0. split; reflexivity.
  - unfold Peer_.latency, clamp16, is_u32 in *. lia.
Qed.

(** C7: [forgetDirectPaths(false)] zeroes the address of each path that is
    not fixed and keeps the address of each fixed path;
    [forgetDirectPaths(true)] zeroes both addresses; in both cases every
    other member of the record and of its two paths is as before. *)
Theorem forgetDirectPaths_spec (fixedToo : bool) (x : Peer Identity) :
  let y := Peer_.forgetDirectPaths fixedToo x in
  addr (_ipv4p y)
  = (if fixedToo then InetAddress.Null
     else if fixed (_ipv4p x) then addr (_ipv4p x) else InetAddress.Null)
  /\ addr (_ipv6p y)
     = (if fixedToo then InetAddress.Null
        else if fixed (_ipv6p x) then addr (_ipv6p x) else InetAddress.Null)
  /\ fixed (_ipv4p y) = fixed (_ipv4p x)
  /\ fixed (_ipv6p y) = fixed (_ipv6p x)
  /\ localPort (_ipv4p y) = localPort (_ipv4p x)
  /\ localPort (_ipv6p y) = localPort (_ipv6p x)
  /\ lastSend (_ipv4p y) = lastSend (_ipv4p x)
  /\ lastSend (_ipv6p y) = lastSend (_ipv6p x)
  /\ lastReceive (_ipv4p y) = lastReceive (_ipv4p x)
  /\ lastReceive (_ipv6p y) = lastReceive (_ipv6p x)
  /\ lastFirewallOpener (_ipv4p y) = lastFirewallOpener (_ipv4p x)
  /\ lastFirewallOpener (_ipv6p y) = lastFirewallOpener (_ipv6p x)
  /\ _key y = _key x
  /\ _id y = _id x
  /\ _lastUsed y = _lastUsed x
  /\ _lastUnicastFrame y = _lastUnicastFrame x
  /\ _lastMulticastFrame y = _lastMulticastFrame x
  /\ _lastAnnouncedTo y = _lastAnnouncedTo x
  /\ _vMajor y = _vMajor x
  /\ _vMinor y = _vMinor x
  /\ _vRevision y = _vRevision x
  /\ _latency y = _latency x.
Proof.
  unfold Peer_.forgetDirectPaths.
  destruct x as [k i [s4 r4 o4 p4 a4 f4] [s6 r6 o6 p6 a6 f6] u uf mf an ma mi re la].
  destruct fixedToo, f4, f6; cbn; repeat split; reflexivity.
Qed.

End PeerOperations.


(** C8: [ipv4Path()] returns the address of the IPv4 path record.
    [ipv6Path()], documented as the IPv6 direct address, returns the address
    of the IPv4 path record as well: for [alice], whose IPv6 record holds
    [ip6], it returns [ip4]. *)
Theorem ipv6Path_returns_ipv4_record :
  (forall (Identity : Type) (x : Peer Identity),
      Peer_.ipv4Path x = addr (_ipv4p x)
      /\ Peer_.ipv6Path x = addr (_ipv4p x))
  /\ addr (_ipv6p Examples.alice) = Examples.ip6
  /\ Peer_.ipv6Path Examples.alice = Examples.ip4
  /\ Peer_.ipv6Path Examples.alice <> addr (_ipv6p Examples.alice).
Proof.
  split; [intros Identity x; split; reflexivity|].
  split; [reflexivity|].
  split; [reflexivity|].
  cbn. discriminate.
Qed.

(** * The monad's equations *)

Section MonadEquations.
Context {S A B : Type}.

Lemma bind_lift_Ok (a : A) (k : A -> M S B) (s : S) :
  bind (lift (Ok a)) k s = k a s.
Proof. reflexivity. Qed.

Lemma bind_lift_Throw (e : exn) (k : A -> M S B) (s : S) :
  bind (lift (Throw e)) k s = (s, Throw e).
Proof. reflexivity. Qed.

Lemma bind_ret (a : A) (k : A -> M S B) (s : S) :
  bind (ret a) k s = k a s.
Proof. reflexivity. Qed.

Lemma bind_assign (f : S -> S) (k : unit -> M S B) (s : S) :
  bind (assign f) k s = k tt (f s).
Proof. reflexivity. Qed.

Lemma bind_zoom_Ok {T : Type} (get : S -> T) (set : T -> S -> S)
    (m : M T A) (k : A -> M S B) (s : S) (t' : T) (a : A) :
  m (get s) = (t', Ok a) ->
  bind (zoom get set m) k s = k a (set t' s).
Proof. intros H. unfold bind, zoom. rewrite H. reflexivity. Qed.

Lemma bind_run_Ok (m : M S A) (k : A -> M S B) (s s' : S) (a : A) :
  m s = (s', Ok a) -> bind m k s = k a s'.
Proof. intros H. unfold bind. rewrite H. reflexivity. Qed.

Lemma bind_Ok_inv (m : M S A) (k : A -> M S B) (s s' : S) (b : B) :
  bind m k s = (s', Ok b) ->
  exists (s1 : S) (a : A), m s = (s1, Ok a) /\ k a s1 = (s', Ok b).
Proof.
  unfold bind. destruct (m s) as [s1 [a | e]]; intros H.
  - exists s1, a. split; [reflexivity | assumption].
  - discriminate.
Qed.

Lemma bind_Throw_inv (m : M S A) (k : A -> M S B) (s s' : S) (e : exn) :
  bind m k s = (s', Throw e) ->
  m s = (s', Throw e)
  \/ exists (s1 : S) (a : A), m s = (s1, Ok a) /\ k a s1 = (s', Throw e).
Proof.
  unfold bind. destruct (m s) as [s1 [a | e1]]; intros H.
  - right. exists s1, a. split; [reflexivity | assumption].
  - left. injection H as -> ->. reflexivity.
Qed.

End MonadEquations.

Ltac monad_step :=
  first [ rewrite bind_lift_Ok | rewrite bind_assign | rewrite bind_ret ];
  cbv beta.

(** * The buffer *)

Lemma Z_of_byte_range (b : byte) : 0 <= Z_of_byte b < 256.
Proof.
  unfold Z_of_byte. pose proof (Byte.to_N_bounded b). lia.
Qed.

Lemma Z_of_byte_of_Z (z : Z) : Z_of_byte (byte_of_Z z) = z mod 256.
Proof.
  unfold byte_of_Z, Z_of_byte, u8. change (2 ^ 8) with 256.
  pose proof (Z.mod_pos_bound z 256 ltac:(lia)) as Hr.
  destruct (Byte.of_N (Z.to_N (z mod 256))) as [b |] eqn:E.
  - apply Byte.to_of_N in E. rewrite E. lia.
  - apply Byte.of_N_None_iff in E. lia.
Qed.

Lemma size_nonneg (l : list byte) : 0 <= Buffer.size l.
Proof. unfold Buffer.size. lia. Qed.

Lemma size_app (l1 l2 : list byte) :
  Buffer.size (l1 ++ l2) = Buffer.size l1 + Buffer.size l2.
Proof. unfold Buffer.size. rewrite length_app. lia. Qed.

Lemma length_be_encode (n : nat) (v : Z) : length (Buffer.be_encode n v) = n.
Proof.
  revert v. induction n as [| n IH]; intros v; cbn; [reflexivity|].
  rewrite length_app, IH. cbn. lia.
Qed.

Lemma size_be_encode (n : nat) (v : Z) :
  Buffer.size (Buffer.be_encode n v) = Z.of_nat n.
Proof. unfold Buffer.size. rewrite length_be_encode. reflexivity. Qed.

Lemma be_decode_app (l1 l2 : list byte) (acc : Z) :
  Buffer.be_decode acc (l1 ++ l2) = Buffer.be_decode (Buffer.be_decode acc l1) l2.
Proof.
  revert acc. induction l1 as [| x l1 IH]; intros acc; cbn; [reflexivity|].
  apply IH.
Qed.

Lemma be_decode_encode (n : nat) (v acc : Z) :
  Buffer.be_decode acc (Buffer.be_encode n v)
  = acc * 256 ^ Z.of_nat n + v mod 256 ^ Z.of_nat n.
Proof.
  revert v acc. induction n as [| n IH]; intros v acc.
  - cbn. rewrite Z.mod_1_r. lia.
  - cbn [Buffer.be_encode]. rewrite be_decode_app, IH. cbn [Buffer.be_decode].
    rewrite Z_of_byte_of_Z.
    rewrite Nat2Z.inj_succ, Z.pow_succ_r by lia.
    rewrite (Z.rem_mul_r v 256 (256 ^ Z.of_nat n)) by lia.
    ring.
Qed.

Lemma add32_small (p n : Z) : 0 <= p + n < 2 ^ 32 -> add32 p n = p + n.
Proof. intros H. unfold add32, u32. apply Z.mod_small. assumption. Qed.

Lemma sub32_small (p q : Z) : 0 <= p - q < 2 ^ 32 -> sub32 p q = p - q.
Proof. intros H. unfold sub32, u32. apply Z.mod_small. assumption. Qed.

(** Reads fail with [out_of_range] only. *)
Lemma index_Throw (b : Buffer.t) (i : Z) (e : exn) :
  Buffer.index b i = Throw e -> e = out_of_range.
Proof.
  unfold Buffer.index.
  destruct (i <? Buffer.size b); [destruct (nth_error b (Z.to_nat i))|];
    congruence.
Qed.

Lemma field_Throw (b : Buffer.t) (i l : Z) (e : exn) :
  Buffer.field b i l = Throw e -> e = out_of_range.
Proof.
  unfold Buffer.field. destruct (i + l <=? Buffer.size b); congruence.
Qed.

Lemma at_n_Throw (n : Z) (b : Buffer.t) (i : Z) (e : exn) :
  Buffer.at_n n b i = Throw e -> e = out_of_range.
Proof.
  unfold Buffer.at_n. destruct (Buffer.field b i n) eqn:F; [discriminate|].
  intros H. injection H as <-. eapply field_Throw; eassumption.
Qed.

Lemma index_Ok_bound (b : Buffer.t) (i : Z) (x : byte) :
  Buffer.index b i = Ok x -> i < Buffer.size b.
Proof.
  unfold Buffer.index. destruct (Z.ltb_spec i (Buffer.size b)); [lia|].
  discriminate.
Qed.

Lemma at_n_in_bounds (n : Z) (b : Buffer.t) (i : Z) :
  i + n <= Buffer.size b ->
  Buffer.at_n n b i
  = Ok (Buffer.be_decode 0 (firstn (Z.to_nat n) (skipn (Z.to_nat i) b))).
Proof.
  intros H. unfold Buffer.at_n, Buffer.field.
  destruct (Z.leb_spec (i + n) (Buffer.size b)); [reflexivity | lia].
Qed.

Lemma suffix_at_bound (B : Buffer.t) (p : Z) (r : list byte) :
  suffix_at B p r -> 0 <= p /\ p + Buffer.size r = Buffer.size B.
Proof.
  intros [pre [-> ->]]. rewrite size_app.
  pose proof (size_nonneg pre). lia.
Qed.

Lemma suffix_at_advance (B : Buffer.t) (p : Z) (bs r : list byte) :
  suffix_at B p (bs ++ r) -> suffix_at B (p + Buffer.size bs) r.
Proof.
  intros [pre [-> ->]]. exists (pre ++ bs).
  rewrite size_app, <- app_assoc. split; reflexivity.
Qed.

Lemma field_suffix (B : Buffer.t) (p n : Z) (bs r : list byte) :
  suffix_at B p (bs ++ r) -> n = Buffer.size bs ->
  Buffer.field B p n = Ok bs.
Proof.
  intros [pre [-> ->]] ->. unfold Buffer.field.
  rewrite !size_app.
  destruct (Z.leb_spec (Buffer.size pre + Buffer.size bs)
              (Buffer.size pre + (Buffer.size bs + Buffer.size r))) as [_ | H].
  - f_equal. unfold Buffer.size. rewrite !Nat2Z.id.
    rewrite skipn_app, skipn_all, Nat.sub_diag. cbn [skipn app].
    rewrite firstn_app, firstn_all, Nat.sub_diag. cbn [firstn].
    apply app_nil_r.
  - pose proof (size_nonneg r). lia.
Qed.

Lemma index_suffix (B : Buffer.t) (p : Z) (x : byte) (r : list byte) :
  suffix_at B p (x :: r) -> Buffer.index B p = Ok x.
Proof.
  intros [pre [-> ->]]. unfold Buffer.index.
  rewrite size_app.
  destruct (Z.ltb_spec (Buffer.size pre) (Buffer.size pre + Buffer.size (x :: r)))
    as [_ | H].
  - unfold Buffer.size. rewrite Nat2Z.id.
    rewrite nth_error_app2, Nat.sub_diag by lia. reflexivity.
  - unfold Buffer.size in H. cbn [length] in H. lia.
Qed.

Lemma at16_suffix (B : Buffer.t) (p v : Z) (r : list byte) :
  suffix_at B p (Buffer.be_encode 2 v ++ r) -> Buffer.at16 B p = Ok (u16 v).
Proof.
  intros H. unfold Buffer.at16, Buffer.at_n.
  rewrite (field_suffix B p 2 _ r H) by (rewrite size_be_encode; reflexivity).
  rewrite be_decode_encode. reflexivity.
Qed.

Lemma at64_suffix (B : Buffer.t) (p v : Z) (r : list byte) :
  suffix_at B p (Buffer.be_encode 8 v ++ r) -> is_u64 v ->
  Buffer.at64 B p = Ok v.
Proof.
  intros H Hv. unfold Buffer.at64, Buffer.at_n.
  rewrite (field_suffix B p 8 _ r H) by (rewrite size_be_encode; reflexivity).
  rewrite be_decode_encode. f_equal.
  change (256 ^ Z.of_nat 8) with (2 ^ 64).
  rewrite Z.mod_small by exact Hv. lia.
Qed.

(** * The codec *)

Section Codec.
Context {PF : Platform} {Identity : Type} {IC : IdentityCodec Identity}.

(** C4: when the byte at the starting position is not
    [ZT_PEER_SERIALIZATION_VERSION], [deserialize] throws
    [std::invalid_argument] having read that byte only: the target record is
    as it was, and the outcome is the same for every buffer with that byte at
    that position. *)
Theorem deserialize_version_mismatch (b : Buffer.t) (startAt : Z)
    (x : Peer Identity) (v : byte) :
  Buffer.index b startAt = Ok v ->
  Z_of_byte v <> ZT_PEER_SERIALIZATION_VERSION ->
  Peer_.deserialize b startAt x = (x, Throw invalid_argument)
  /\ (forall b' : Buffer.t,
        Buffer.index b' startAt = Ok v ->
        Peer_.deserialize b' startAt x = (x, Throw invalid_argument)).
Proof.
  intros Hv Hne.
  assert (H : forall b' : Buffer.t,
             Buffer.index b' startAt = Ok v ->
             Peer_.deserialize b' startAt x = (x, Throw invalid_argument)).
  { intros b' Hb'. unfold Peer_.deserialize.
    rewrite Hb', bind_lift_Ok.
    destruct (Z.eqb_spec (Z_of_byte v) ZT_PEER_SERIALIZATION_VERSION) as [E | _].
    - contradiction.
    - reflexivity. }
  split; [apply H; assumption | exact H].
Qed.

Lemma deserialize_addr_unknown (b : Buffer.t) (tag p : Z) (w : WanPath) :
  tag <> type_code InetAddress.TYPE_NULL ->
  tag <> type_code InetAddress.TYPE_IPV4 ->
  tag <> type_code InetAddress.TYPE_IPV6 ->
  WanPath_.deserialize_addr b tag p w = (w, Ok p).
Proof.
  intros H0 H4 H6. unfold WanPath_.deserialize_addr.
  destruct (Z.eqb_spec tag (type_code InetAddress.TYPE_NULL)); [contradiction|].
  destruct (Z.eqb_spec tag (type_code InetAddress.TYPE_IPV4)); [contradiction|].
  destruct (Z.eqb_spec tag (type_code InetAddress.TYPE_IPV6)); [contradiction|].
  reflexivity.
Qed.

Ltac throw_leaf H :=
  first
    [ discriminate H
    | unfold lift in H; injection H as _ H;
      first [ eapply at_n_Throw; eassumption
            | eapply index_Throw; eassumption
            | eapply field_Throw; eassumption ] ].

Ltac throw_inv H :=
  repeat (apply bind_Throw_inv in H;
          destruct H as [H | (? & ? & _ & H)]; [throw_leaf H|]).

Lemma deserialize_addr_Throw (b : Buffer.t) (tag p : Z) (w w' : WanPath)
    (e : exn) :
  WanPath_.deserialize_addr b tag p w = (w', Throw e) -> e = out_of_range.
Proof.
  unfold WanPath_.deserialize_addr. intros H.
  destruct (tag =? type_code InetAddress.TYPE_NULL).
  { throw_inv H. discriminate H. }
  destruct (tag =? type_code InetAddress.TYPE_IPV4).
  { throw_inv H. discriminate H. }
  destruct (tag =? type_code InetAddress.TYPE_IPV6).
  { throw_inv H. discriminate H. }
  discriminate H.
Qed.

(** [WanPath::deserialize] fails with [std::out_of_range] only. *)
Lemma WanPath_deserialize_Throw (b : Buffer.t) (startAt : Z) (w w' : WanPath)
    (e : exn) :
  WanPath_.deserialize b startAt w = (w', Throw e) -> e = out_of_range.
Proof.
  unfold WanPath_.deserialize. intros H.
  do 9 (apply bind_Throw_inv in H;
        destruct H as [H | (? & ? & _ & H)]; [throw_leaf H|]).
  apply bind_Throw_inv in H.
  destruct H as [H | (? & ? & _ & H)];
    [eapply deserialize_addr_Throw; eassumption|].
  throw_inv H. discriminate H.
Qed.

Ltac no_wrap :=
  repeat match goal with
         | |- context [add32 ?p ?n] => rewrite (add32_small p n) by lia
         end.

(** C10: a tag byte that is none of the three address types is not rejected.
    The four 64-bit members are read, the [switch] does nothing, so the
    stored address stays and no payload byte is consumed, and the byte right
    after the tag is read as the fixed flag: 34 bytes are consumed.  The only
    failure is [std::out_of_range], when that byte lies outside the
    buffer. *)
Theorem WanPath_deserialize_unknown_tag (b : Buffer.t) (startAt : Z)
    (w : WanPath) (tag : byte) :
  0 <= startAt -> Buffer.size b < 2 ^ 32 ->
  Buffer.index b (startAt + 32) = Ok tag ->
  Z_of_byte tag <> type_code InetAddress.TYPE_NULL ->
  Z_of_byte tag <> type_code InetAddress.TYPE_IPV4 ->
  Z_of_byte tag <> type_code InetAddress.TYPE_IPV6 ->
  exists ls lr lf lp : Z,
    Buffer.at64 b startAt = Ok ls
    /\ Buffer.at64 b (startAt + 8) = Ok lr
    /\ Buffer.at64 b (startAt + 16) = Ok lf
    /\ Buffer.at64 b (startAt + 24) = Ok lp
    /\ WanPath_.deserialize b startAt w
       = match Buffer.index b (startAt + 33) with
         | Ok f =>
             (mkWanPath ls lr lf (Demarc.intToPort lp) (addr w)
                (negb (Z_of_byte f =? 0)),
              Ok 34)
         | Throw _ =>
             (mkWanPath ls lr lf (Demarc.intToPort lp) (addr w) (fixed w),
              Throw out_of_range)
         end
    /\ (forall e : exn,
          snd (WanPath_.deserialize b startAt w) = Throw e ->
          e = out_of_range).
Proof.
  intros H0 Hsz Htag N0 N4 N6.
  pose proof (index_Ok_bound _ _ _ Htag) as Hb.
  eexists _, _, _, _.
  split; [apply at_n_in_bounds; lia|].
  split; [apply at_n_in_bounds; lia|].
  split; [apply at_n_in_bounds; lia|].
  split; [apply at_n_in_bounds; lia|].
  split.
  - unfold WanPath_.deserialize, Buffer.at64. no_wrap.
    replace (startAt + 8 + 8) with (startAt + 16) by ring.
    replace (startAt + 16 + 8) with (startAt + 24) by ring.
    replace (startAt + 24 + 8) with (startAt + 32) by ring.
    replace (startAt + 32 + 1) with (startAt + 33) by ring.
    rewrite (at_n_in_bounds 8 b startAt) by lia. do 2 monad_step.
    rewrite (at_n_in_bounds 8 b (startAt + 8)) by lia. do 2 monad_step.
    rewrite (at_n_in_bounds 8 b (startAt + 16)) by lia. do 2 monad_step.
    rewrite (at_n_in_bounds 8 b (startAt + 24)) by lia. do 2 monad_step.
    rewrite Htag. monad_step.
    erewrite bind_run_Ok by (apply deserialize_addr_unknown; assumption).
    destruct (Buffer.index b (startAt + 33)) as [f | e] eqn:Hf.
    + pose proof (index_Ok_bound _ _ _ Hf) as Hfb.
      do 2 monad_step. no_wrap.
      unfold ret. f_equal. f_equal.
      rewrite sub32_small by lia. ring.
    + rewrite bind_lift_Throw.
      rewrite (index_Throw _ _ _ Hf). reflexivity.
  - intros e.
    destruct (WanPath_.deserialize b startAt w) as [w' r] eqn:E.
    cbn. intros ->. eapply WanPath_deserialize_Throw. eassumption.
Qed.

(** ** What [serialize] appends *)

Lemma firstn_size (l : list byte) : firstn (Z.to_nat (Buffer.size l)) l = l.
Proof. unfold Buffer.size. rewrite Nat2Z.id. apply firstn_all. Qed.

Lemma firstn_be_encode (n : nat) (v : Z) :
  firstn n (Buffer.be_encode n v) = Buffer.be_encode n v.
Proof.
  rewrite <- (length_be_encode n v) at 1. apply firstn_all.
Qed.

Lemma append_bytes_Ok_inv (C : Z) (data : list byte) (l : Z)
    (b b' : Buffer.t) (u : unit) :
  Buffer.append_bytes C data l b = (b', Ok u) ->
  b' = b ++ firstn (Z.to_nat l) data /\ Buffer.size b + l <= C.
Proof.
  unfold Buffer.append_bytes.
  destruct (Z.leb_spec (Buffer.size b + l) C) as [Hle | Hgt]; intros H.
  - injection H as <- _. split; [reflexivity | assumption].
  - discriminate.
Qed.

Lemma append_int_Ok_inv (C : Z) (n : nat) (v : Z) (b b' : Buffer.t) (u : unit) :
  Buffer.append_bytes C (Buffer.be_encode n v) (Z.of_nat n) b = (b', Ok u) ->
  b' = b ++ Buffer.be_encode n v /\ Buffer.size b' <= C.
Proof.
  intros H. apply append_bytes_Ok_inv in H. destruct H as [-> Hle].
  rewrite Nat2Z.id, firstn_be_encode. split; [reflexivity|].
  rewrite size_app, size_be_encode. assumption.
Qed.

Ltac binds_inv H :=
  repeat (let s := fresh "s" in
          let H1 := fresh "Happ" in
          apply bind_Ok_inv in H; destruct H as (s & [] & H1 & H)).

Ltac appends_inv :=
  repeat match goal with
         | H : Buffer.append8 _ _ _ = _ |- _ =>
             apply (append_int_Ok_inv _ 1) in H; destruct H as [-> ?]
         | H : Buffer.append16 _ _ _ = _ |- _ =>
             apply (append_int_Ok_inv _ 2) in H; destruct H as [-> ?]
         | H : Buffer.append64 _ _ _ = _ |- _ =>
             apply (append_int_Ok_inv _ 8) in H; destruct H as [-> ?]
         | H : Buffer.append_bytes _ _ _ _ = _ |- _ =>
             apply append_bytes_Ok_inv in H; destruct H as [-> ?]
         | H : ret _ _ = _ |- _ =>
             unfold ret in H; injection H as <-
         end.

Lemma WanPath_serialize_Ok_inv (C : Z) (w : WanPath) (b b' : Buffer.t) :
  WanPath_.serialize C w b = (b', Ok tt) ->
  b' = b ++ WanPath_bytes w /\ Buffer.size b' <= C.
Proof.
  unfold WanPath_.serialize, WanPath_bytes, addr_payload. intros H.
  binds_inv H.
  destruct (InetAddress.type (addr w)); binds_inv Happ4; appends_inv;
    (split; [|assumption]);
    change (Z.to_nat 4) with 4%nat; change (Z.to_nat 16) with 16%nat;
    rewrite <- ?app_assoc; reflexivity.
Qed.

Lemma Peer_serialize_Ok_inv (C : Z) (x : Peer Identity) (b b' : Buffer.t) :
  Peer_.serialize C x b = (b', Ok tt) ->
  b' = b ++ Peer_bytes x /\ Buffer.size b' <= C.
Proof.
  unfold Peer_.serialize, Peer_bytes. intros H.
  binds_inv H.
  apply WanPath_serialize_Ok_inv in Happ2. destruct Happ2 as [-> _].
  apply WanPath_serialize_Ok_inv in Happ3. destruct Happ3 as [-> _].
  appends_inv.
  split; [|assumption].
  rewrite firstn_size, <- ?app_assoc. reflexivity.
Qed.

(** ** What [deserialize] reads back *)

Lemma suffix_at_le (B : Buffer.t) (p : Z) (r : list byte) :
  suffix_at B p r -> 0 <= p <= Buffer.size B.
Proof.
  intros H. apply suffix_at_bound in H. pose proof (size_nonneg r). lia.
Qed.

Lemma id_deserialize_suffix (B : Buffer.t) (p : Z) (i i0 : Identity)
    (r : list byte) :
  id_codec_ok ->
  suffix_at B p (id_bytes i false ++ r) ->
  id_deserialize B p i0 = (i, Ok (Buffer.size (id_bytes i false))).
Proof.
  intros Hc [pre [-> ->]]. apply Hc.
Qed.

Ltac next H :=
  apply suffix_at_advance in H;
  rewrite ?size_be_encode in H;
  change (Z.of_nat 1) with 1 in H;
  change (Z.of_nat 2) with 2 in H;
  change (Z.of_nat 8) with 8 in H;
  pose proof (suffix_at_le _ _ _ H);
  no_wrap.

Lemma deserialize_addr_bytes (B : Buffer.t) (p : Z) (a : InetAddress.t)
    (w0 : WanPath) (r : list byte) :
  type_codes_ok -> InetAddress.wf a -> Buffer.size B < 2 ^ 32 ->
  suffix_at B p (addr_payload a ++ r) ->
  WanPath_.deserialize_addr B (type_code (InetAddress.type a)) p w0
  = (set_addr a w0, Ok (p + Buffer.size (addr_payload a))).
Proof.
  intros [Hrange Hinj] Hwf Hsz H.
  unfold WanPath_.deserialize_addr.
  destruct a as [| ip port | ip port];
    cbn [InetAddress.type InetAddress.wf] in *.
  - rewrite Z.eqb_refl. monad_step.
    unfold ret, InetAddress.zero. cbn. do 2 f_equal. lia.
  - destruct Hwf as [Hlen Hport].
    destruct (Z.eqb_spec (type_code InetAddress.TYPE_IPV4)
                (type_code InetAddress.TYPE_NULL)) as [E | _];
      [apply Hinj in E; discriminate|].
    rewrite Z.eqb_refl.
    unfold addr_payload in *.
    cbn [InetAddress.type InetAddress.rawIpData InetAddress.port] in *.
    assert (Hip : firstn 4 ip = ip) by (rewrite <- Hlen; apply firstn_all).
    rewrite Hip in *.
    assert (Hsize : Buffer.size ip = 4) by (unfold Buffer.size; lia).
    rewrite <- app_assoc in H.
    rewrite (field_suffix B p 4 ip _ H) by (symmetry; exact Hsize).
    monad_step.
    next H. rewrite Hsize in *. no_wrap.
    rewrite (at16_suffix _ _ _ _ H). do 2 monad_step.
    next H.
    unfold ret, InetAddress.set. cbn [Z.eqb Pos.eqb].
    unfold u16. rewrite (Z.mod_small port) by exact Hport.
    rewrite size_app, size_be_encode, Hsize. reflexivity.
  - destruct Hwf as [Hlen Hport].
    destruct (Z.eqb_spec (type_code InetAddress.TYPE_IPV6)
                (type_code InetAddress.TYPE_NULL)) as [E | _];
      [apply Hinj in E; discriminate|].
    destruct (Z.eqb_spec (type_code InetAddress.TYPE_IPV6)
                (type_code InetAddress.TYPE_IPV4)) as [E | _];
      [apply Hinj in E; discriminate|].
    rewrite Z.eqb_refl.
    unfold addr_payload in *.
    cbn [InetAddress.type InetAddress.rawIpData InetAddress.port] in *.
    assert (Hip : firstn 16 ip = ip) by (rewrite <- Hlen; apply firstn_all).
    rewrite Hip in *.
    assert (Hsize : Buffer.size ip = 16) by (unfold Buffer.size; lia).
    rewrite <- app_assoc in H.
    rewrite (field_suffix B p 16 ip _ H) by (symmetry; exact Hsize).
    monad_step.
    next H. rewrite Hsize in *. no_wrap.
    rewrite (at16_suffix _ _ _ _ H). do 2 monad_step.
    next H.
    unfold ret, InetAddress.set. cbn [Z.eqb Pos.eqb].
    unfold u16. rewrite (Z.mod_small port) by exact Hport.
    rewrite size_app, size_be_encode, Hsize. reflexivity.
Qed.

Lemma be_encode_1 (v : Z) : Buffer.be_encode 1 v = [byte_of_Z v].
Proof. reflexivity. Qed.

Lemma WanPath_deserialize_bytes (B : Buffer.t) (p : Z) (w w0 : WanPath)
    (r : list byte) :
  type_codes_ok -> WanPath_wf w -> Buffer.size B < 2 ^ 32 ->
  suffix_at B p (WanPath_bytes w ++ r) ->
  WanPath_.deserialize B p w0 = (w, Ok (Buffer.size (WanPath_bytes w))).
Proof.
  intros Hcodes (Hs & Hr & Hf & Hp & Ha) Hsz H.
  pose proof (suffix_at_le _ _ _ H) as Hstart.
  assert (Hlen : Buffer.size (WanPath_bytes w)
                 = 34 + Buffer.size (addr_payload (addr w))).
  { unfold WanPath_bytes. rewrite !size_app, !size_be_encode. lia. }
  rewrite Hlen.
  destruct w as [ls lr lf lp a f].
  unfold WanPath_bytes in H.
  cbn [lastSend lastReceive lastFirewallOpener localPort addr fixed] in *.
  unfold Demarc.portToInt in H.
  rewrite <- !app_assoc in H.
  unfold WanPath_.deserialize. cbv zeta.
  rewrite (at64_suffix _ _ _ _ H Hs). do 2 monad_step. next H.
  rewrite (at64_suffix _ _ _ _ H Hr). do 2 monad_step. next H.
  rewrite (at64_suffix _ _ _ _ H Hf). do 2 monad_step. next H.
  rewrite (at64_suffix _ _ _ _ H Hp). do 2 monad_step. next H.
  rewrite be_encode_1 in H. cbn [app] in H.
  rewrite (index_suffix _ _ _ _ H). monad_step.
  apply (suffix_at_advance _ _ [_]) in H.
  change (Buffer.size [byte_of_Z (type_code (InetAddress.type a))]) with 1 in H.
  pose proof (suffix_at_le _ _ _ H). no_wrap.
  rewrite Z_of_byte_of_Z.
  rewrite (Z.mod_small (type_code (InetAddress.type a)))
    by (destruct Hcodes as [Hrange _]; apply Hrange).
  erewrite bind_run_Ok
    by (eapply deserialize_addr_bytes; eassumption).
  next H.
  rewrite be_encode_1 in H. cbn [app] in H.
  rewrite (index_suffix _ _ _ _ H). do 2 monad_step.
  apply (suffix_at_advance _ _ [_]) in H.
  change (Buffer.size [byte_of_Z (if f then 1 else 0)]) with 1 in H.
  pose proof (suffix_at_le _ _ _ H). no_wrap.
  unfold ret. f_equal.
  - unfold Demarc.intToPort. destruct f; reflexivity.
  - f_equal. pose proof (size_nonneg (addr_payload a)).
    rewrite sub32_small by lia. lia.
Qed.

(** Whatever the target held, [deserialize] leaves in it the record that was
    serialized, its four 16-bit fields reduced modulo 2^16, and returns the
    length of the encoding. *)
Lemma Peer_deserialize_bytes (B : Buffer.t) (p : Z) (x x0 : Peer Identity)
    (r : list byte) :
  type_codes_ok -> id_codec_ok -> Peer_wf x -> Buffer.size B < 2 ^ 32 ->
  suffix_at B p (Peer_bytes x ++ r) ->
  Peer_.deserialize B p x0 = (narrow16 x, Ok (Buffer.size (Peer_bytes x))).
Proof.
  intros Hcodes Hid (Hk & Hw4 & Hw6 & Hu & Huf & Hmf & Han & _) Hsz H.
  pose proof (suffix_at_le _ _ _ H) as Hstart.
  assert (Hlen : Buffer.size (Peer_bytes x)
                 = 73 + Buffer.size (id_bytes (_id x) false)
                   + Buffer.size (WanPath_bytes (_ipv4p x))
                   + Buffer.size (WanPath_bytes (_ipv6p x))).
  { unfold Peer_bytes. rewrite <- Hk, firstn_size.
    rewrite !size_app, !size_be_encode, Hk.
    unfold ZT_PEER_SECRET_KEY_LENGTH. lia. }
  rewrite Hlen.
  unfold Peer_bytes in H. rewrite <- Hk, firstn_size in H.
  destruct x as [k i w4 w6 u uf mf an ma mi re la].
  cbn [_key _id _ipv4p _ipv6p _lastUsed _lastUnicastFrame _lastMulticastFrame
       _lastAnnouncedTo _vMajor _vMinor _vRevision _latency] in *.
  rewrite <- !app_assoc in H.
  unfold Peer_.deserialize. cbv zeta.
  rewrite be_encode_1 in H. cbn [app] in H.
  rewrite (index_suffix _ _ _ _ H). monad_step.
  change (negb (Z_of_byte (byte_of_Z ZT_PEER_SERIALIZATION_VERSION)
                =? ZT_PEER_SERIALIZATION_VERSION)) with false.
  cbv iota.
  apply (suffix_at_advance _ _ [_]) in H.
  change (Buffer.size [byte_of_Z ZT_PEER_SERIALIZATION_VERSION]) with 1 in H.
  pose proof (suffix_at_le _ _ _ H). no_wrap.
  rewrite (field_suffix _ _ _ _ _ H (eq_sym Hk)). do 2 monad_step.
  next H. rewrite Hk in *. unfold ZT_PEER_SECRET_KEY_LENGTH in *. no_wrap.
  erewrite bind_zoom_Ok
    by (cbn [_id set_key]; eapply id_deserialize_suffix; eassumption).
  next H.
  erewrite bind_zoom_Ok
    by (cbn [_ipv4p set_key set_id];
        exact (WanPath_deserialize_bytes B _ w4 _ _ Hcodes Hw4 Hsz H)).
  next H.
  erewrite bind_zoom_Ok
    by (cbn [_ipv6p set_key set_id set_ipv4p];
        exact (WanPath_deserialize_bytes B _ w6 _ _ Hcodes Hw6 Hsz H)).
  next H.
  rewrite (at64_suffix _ _ _ _ H Hu). do 2 monad_step. next H.
  rewrite (at64_suffix _ _ _ _ H Huf). do 2 monad_step. next H.
  rewrite (at64_suffix _ _ _ _ H Hmf). do 2 monad_step. next H.
  rewrite (at64_suffix _ _ _ _ H Han). do 2 monad_step. next H.
  rewrite (at16_suffix _ _ _ _ H). do 2 monad_step. next H.
  rewrite (at16_suffix _ _ _ _ H). do 2 monad_step. next H.
  rewrite (at16_suffix _ _ _ _ H). do 2 monad_step. next H.
  rewrite <- (app_nil_r (Buffer.be_encode 2 la)) in H.
  rewrite <- app_assoc in H.
  rewrite (at16_suffix _ _ _ _ H). do 2 monad_step. next H.
  unfold ret. f_equal. f_equal.
  pose proof (size_nonneg (id_bytes i false)).
  pose proof (size_nonneg (WanPath_bytes w4)).
  pose proof (size_nonneg (WanPath_bytes w6)).
  rewrite sub32_small by lia. lia.
Qed.

(** C3, as amended: for a record whose three version components and latency
    fit in 16 bits, decoding what [serialize] appended, into any target
    record, leaves the target equal to the serialized record in every member
    (key, identity, both paths, the four timestamps, the version components
    and the latency); serializing the decoded record gives the same bytes;
    and [deserialize] returns the number of bytes that [serialize]
    appended. *)
Theorem serialize_deserialize_roundtrip (C : Z) (x x0 : Peer Identity)
    (b b' : Buffer.t) :
  type_codes_ok -> id_codec_ok -> C < 2 ^ 32 ->
  Peer_wf x ->
  is_u16 (_vMajor x) -> is_u16 (_vMinor x) -> is_u16 (_vRevision x) ->
  is_u16 (_latency x) ->
  Peer_.serialize C x b = (b', Ok tt) ->
  exists (y : Peer Identity) (n : Z),
    Peer_.deserialize b' (Buffer.size b) x0 = (y, Ok n)
    /\ y = x
    /\ Peer_.serialize C y b = (b', Ok tt)
    /\ n = Buffer.size b' - Buffer.size b.
Proof.
  intros Hcodes Hid HC Hwf Hma Hmi Hre Hla Hser.
  destruct (Peer_serialize_Ok_inv C x b b' Hser) as [Hb' Hcap].
  assert (Hsuf : suffix_at b' (Buffer.size b) (Peer_bytes x ++ [])).
  { exists b. rewrite app_nil_r. split; [assumption | reflexivity]. }
  assert (Hnarrow : narrow16 x = x).
  { destruct x as [k i w4 w6 u uf mf an ma mi re la].
    unfold narrow16, u16, is_u16 in *.
    cbn [_key _id _ipv4p _ipv6p _lastUsed _lastUnicastFrame
         _lastMulticastFrame _lastAnnouncedTo _vMajor _vMinor _vRevision
         _latency] in *.
    rewrite !Z.mod_small by assumption. reflexivity. }
  exists x, (Buffer.size (Peer_bytes x)).
  split.
  - rewrite (Peer_deserialize_bytes b' _ x x0 [] Hcodes Hid Hwf)
      by (lia || exact Hsuf).
    rewrite Hnarrow. reflexivity.
  - split; [reflexivity|]. split; [assumption|].
    rewrite Hb', size_app. lia.
Qed.

End Codec.

(** * Evaluation on concrete records *)

Lemma platform_codes_ok : @type_codes_ok Examples.platform.
Proof.
  split.
  - intros []; cbn; lia.
  - intros [] []; cbn; intros H; (reflexivity || discriminate H).
Qed.

Lemma byte_identity_ok : @id_codec_ok byte Examples.byte_identity.
Proof.
  intros i i0 pre post. cbn.
  rewrite (index_suffix (pre ++ i :: post) (Buffer.size pre) i post).
  - reflexivity.
  - exists pre. split; reflexivity.
Qed.

Lemma alice_wf : Peer_wf Examples.alice.
Proof.
  unfold Peer_wf, WanPath_wf, is_u64, is_u32, is_u16. cbn.
  repeat split; (reflexivity || lia).
Qed.

(** The round trip for every populated record, as C3 words it, fails for
    [alice] after [setRemoteVersion(70000,0,4)]: the record is serialized,
    decoding succeeds, and the decoded major version is 70000 mod 2^16,
    that is 4464. *)
Lemma roundtrip_loses_wide_version :
  Peer_wf Examples.alice_v70000
  /\ exists (b' : Buffer.t) (y : Peer byte) (n : Z),
      Peer_.serialize (PF := Examples.platform) (IC := Examples.byte_identity)
        1000 Examples.alice_v70000 [] = (b', Ok tt)
      /\ Peer_.deserialize (PF := Examples.platform)
           (IC := Examples.byte_identity) b' 0 Examples.fresh = (y, Ok n)
      /\ _vMajor Examples.alice_v70000 = 70000
      /\ _vMajor y = 4464
      /\ y <> Examples.alice_v70000.
Proof.
  split.
  - unfold Peer_wf, WanPath_wf, is_u64, is_u32, is_u16. cbn.
    repeat split; (reflexivity || lia).
  - eexists _, _, _.
    split; [vm_compute; reflexivity|].
    split; [vm_compute; reflexivity|].
    split; [reflexivity|].
    split; [reflexivity|].
    intros H. apply (f_equal _vMajor) in H. vm_compute in H. discriminate H.
Qed.

(** The closing clause of C9 without its bound, that a receive time in the
    future never makes a path that is not fixed active, fails: for
    [wrapped_path], whose [lastReceive] is 2^64 - 1, the age at [now = 100]
    wraps to 101, below the timeout, and the path is active. *)
Lemma future_lastReceive_active :
  fixed MoreExamples.wrapped_path = false
  /\ InetAddress.to_bool (addr MoreExamples.wrapped_path) = true
  /\ is_u64 (lastReceive MoreExamples.wrapped_path)
  /\ 100 < lastReceive MoreExamples.wrapped_path
  /\ sub64 100 (lastReceive MoreExamples.wrapped_path) = 101
  /\ WanPath_.isActive (PF := Examples.platform)
       MoreExamples.wrapped_path 100 = true.
Proof.
  split; [reflexivity|].
  split; [reflexivity|].
  split; [unfold is_u64; cbn; lia|].
  split; [cbn; lia|].
  split; vm_compute; reflexivity.
Qed.

Lemma findCommonGround_cases_witness :
  Peer_.findCommonGround (PF := Examples.platform)
    Examples.alice Examples.carol 2100
  = (Examples.ip6', Examples.ip6).
Proof.
  apply (proj1 (findCommonGround_cases (PF := Examples.platform)
                  Examples.alice Examples.carol 2100)).
  reflexivity.
Defined.

Lemma findCommonGround_swap_witness :
  Peer_.findCommonGround (PF := Examples.platform)
    (Peer_.setLastUsed 5000 Examples.alice) Examples.bob 2100
  = Peer_.findCommonGround (PF := Examples.platform)
      Examples.alice Examples.bob 2100.
Proof.
  apply (proj2 (findCommonGround_swap (PF := Examples.platform)
                  Examples.alice Examples.bob 2100)); reflexivity.
Defined.

Lemma deserialize_version_mismatch_witness :
  Buffer.index [x05; x00] 0 = Ok x05
  /\ Z_of_byte x05 <> ZT_PEER_SERIALIZATION_VERSION
  /\ Peer_.deserialize (PF := Examples.platform)
       (IC := Examples.byte_identity) [x05; x00] 0 Examples.bob
     = (Examples.bob, Throw invalid_argument).
Proof.
  split; [reflexivity|].
  split; [discriminate|].
  refine (proj1 (deserialize_version_mismatch (PF := Examples.platform)
                   (IC := Examples.byte_identity)
                   [x05; x00] 0 Examples.bob x05 _ _)).
  - reflexivity.
  - discriminate.
Defined.

Lemma isActive_spec_witness :
  is_u64 243000
  /\ is_u64 (lastReceive (_ipv4p Examples.alice))
  /\ WanPath_.isActive (PF := Examples.platform) (_ipv4p Examples.alice) 243000
     = false.
Proof.
  split; [unfold is_u64; lia|].
  split; [unfold is_u64; cbn; lia|].
  refine (proj1 (proj2 (proj2 (proj2
            (isActive_spec (PF := Examples.platform)
               (_ipv4p Examples.alice) 243000 _ _)))) _ _).
  - unfold is_u64; lia.
  - unfold is_u64; cbn; lia.
  - reflexivity.
  - reflexivity.
Defined.

Lemma isActive_future_lastReceive_witness :
  InetAddress.to_bool (addr (_ipv4p Examples.alice)) = true
  /\ sub64 1500 (lastReceive (_ipv4p Examples.alice)) = 2 ^ 64 - 500
  /\ WanPath_.isActive (PF := Examples.platform) (_ipv4p Examples.alice) 1500
     = false.
Proof.
  split; [reflexivity|].
  refine (proj2 (isActive_future_lastReceive (PF := Examples.platform)
                   (_ipv4p Examples.alice) 1500 _ _ _ _ _)).
  - unfold is_u64; lia.
  - unfold is_u64; cbn; lia.
  - reflexivity.
  - cbn; lia.
  - cbn; lia.
Defined.

Lemma addDirectLatencyMeasurment_spec_witness :
  is_u32 70000
  /\ is_u32 (_latency Examples.alice)
  /\ _latency (Peer_.addDirectLatencyMeasurment 70000 Examples.alice)
     = (120 + 65535) / 2.
Proof.
  split; [unfold is_u32; lia|].
  split; [unfold is_u32; cbn; lia|].
  refine (proj1 (proj2 (addDirectLatencyMeasurment_spec
                          70000 Examples.alice _ _)) _).
  - unfold is_u32; lia.
  - unfold is_u32; cbn; lia.
  - cbn; lia.
Defined.

Lemma WanPath_deserialize_unknown_tag_witness :
  exists ls lr lf lp : Z,
    Buffer.at64 Examples.odd_tag_block 0 = Ok ls
    /\ Buffer.at64 Examples.odd_tag_block (0 + 8) = Ok lr
    /\ Buffer.at64 Examples.odd_tag_block (0 + 16) = Ok lf
    /\ Buffer.at64 Examples.odd_tag_block (0 + 24) = Ok lp
    /\ WanPath_.deserialize (PF := Examples.platform)
         Examples.odd_tag_block 0 (_ipv4p Examples.alice)
       = match Buffer.index Examples.odd_tag_block (0 + 33) with
         | Ok f =>
             (mkWanPath ls lr lf (Demarc.intToPort lp)
                (addr (_ipv4p Examples.alice)) (negb (Z_of_byte f =? 0)),
              Ok 34)
         | Throw _ =>
             (mkWanPath ls lr lf (Demarc.intToPort lp)
                (addr (_ipv4p Examples.alice))
                (fixed (_ipv4p Examples.alice)),
              Throw out_of_range)
         end
    /\ (forall e : exn,
          snd (WanPath_.deserialize (PF := Examples.platform)
                 Examples.odd_tag_block 0 (_ipv4p Examples.alice)) = Throw e ->
          e = out_of_range).
Proof.
  apply (WanPath_deserialize_unknown_tag (PF := Examples.platform)
           Examples.odd_tag_block 0 (_ipv4p Examples.alice) x07).
  - lia.
  - vm_compute. reflexivity.
  - reflexivity.
  - vm_compute. discriminate.
  - vm_compute. discriminate.
  - vm_compute. discriminate.
Defined.

Lemma serialize_deserialize_roundtrip_witness :
  Peer_.serialize (PF := Examples.platform) (IC := Examples.byte_identity)
    1000 Examples.alice [x00] = (Examples.alice_encoding, Ok tt)
  /\ exists (y : Peer byte) (n : Z),
      Peer_.deserialize (PF := Examples.platform)
        (IC := Examples.byte_identity)
        Examples.alice_encoding (Buffer.size [x00]) Examples.fresh = (y, Ok n)
      /\ y = Examples.alice
      /\ Peer_.serialize (PF := Examples.platform)
           (IC := Examples.byte_identity) 1000 y [x00]
         = (Examples.alice_encoding, Ok tt)
      /\ n = Buffer.size Examples.alice_encoding - Buffer.size [x00].
Proof.
  split; [vm_compute; reflexivity|].
  apply (serialize_deserialize_roundtrip (PF := Examples.platform)
           (IC := Examples.byte_identity)
           1000 Examples.alice Examples.fresh [x00] Examples.alice_encoding
           platform_codes_ok byte_identity_ok).
  - lia.
  - exact alice_wf.
  - unfold is_u16; cbn; lia.
  - unfold is_u16; cbn; lia.
  - unfold is_u16; cbn; lia.
  - unfold is_u16; cbn; lia.
  - vm_compute; reflexivity.
Defined.

(** * Further properties of the paths *)

Section PathProperties.
Context {PF : Platform} {Identity : Type}.

Lemma isActive_has_address (w : WanPath) (now : Z) :
  WanPath_.isActive w now = true -> InetAddress.to_bool (addr w) = true.
Proof.
  intros H. apply isActive_true_iff in H. apply H.
Qed.

(** X1: a learned (not fixed) path with an address whose activity window
    does not reach past 2^64 is active exactly from [lastReceive] up to, and
    not including, [lastReceive + ZT_PEER_LINK_ACTIVITY_TIMEOUT]. *)
Theorem isActive_window (w : WanPath) (now : Z) :
  is_u64 now -> is_u64 (lastReceive w) ->
  lastReceive w + ZT_PEER_LINK_ACTIVITY_TIMEOUT <= 2 ^ 64 ->
  InetAddress.to_bool (addr w) = true -> fixed w = false ->
  (WanPath_.isActive w now = true <->
   lastReceive w <= now < lastReceive w + ZT_PEER_LINK_ACTIVITY_TIMEOUT).
Proof.
  intros Hn Hl Hwin Ha Hf.
  rewrite isActive_true_iff.
  destruct (Z_le_gt_dec (lastReceive w) now) as [Hle | Hgt].
  - rewrite sub64_past by assumption.
    split.
    + intros [_ [Hfix | Hage]]; [congruence | lia].
    + intros Hin. split; [assumption | right; lia].
  - rewrite sub64_future by (assumption || lia).
    unfold is_u64 in *.
    split.
    + intros [_ [Hfix | Hage]]; [congruence | lia].
    + intros Hin. lia.
Qed.

(** X2: [ipv4ActivePath(now)] and [ipv6ActivePath(now)] return a non-null
    address exactly when the path is active at [now]; it is then the address
    of that path record, and otherwise the null address. *)
Theorem activePath_spec (x : Peer Identity) (now : Z) :
  InetAddress.to_bool (Peer_.ipv4ActivePath x now)
  = WanPath_.isActive (_ipv4p x) now
  /\ InetAddress.to_bool (Peer_.ipv6ActivePath x now)
     = WanPath_.isActive (_ipv6p x) now
  /\ Peer_.ipv4ActivePath x now
     = (if WanPath_.isActive (_ipv4p x) now then addr (_ipv4p x)
        else InetAddress.Null)
  /\ Peer_.ipv6ActivePath x now
     = (if WanPath_.isActive (_ipv6p x) now then addr (_ipv6p x)
        else InetAddress.Null)
  /\ Peer_.hasActiveDirectPath x now
     = InetAddress.to_bool (Peer_.ipv4ActivePath x now)
       || InetAddress.to_bool (Peer_.ipv6ActivePath x now).
Proof.
  assert (H4 : InetAddress.to_bool (Peer_.ipv4ActivePath x now)
               = WanPath_.isActive (_ipv4p x) now).
  { unfold Peer_.ipv4ActivePath.
    destruct (WanPath_.isActive (_ipv4p x) now) eqn:E; [|reflexivity].
    apply isActive_has_address in E. exact E. }
  assert (H6 : InetAddress.to_bool (Peer_.ipv6ActivePath x now)
               = WanPath_.isActive (_ipv6p x) now).
  { unfold Peer_.ipv6ActivePath.
    destruct (WanPath_.isActive (_ipv6p x) now) eqn:E; [|reflexivity].
    apply isActive_has_address in E. exact E. }
  repeat split; try assumption; try reflexivity.
  rewrite H4, H6. reflexivity.
Qed.

(** X3: a peer with an active direct path at some time has a direct path; a
    peer without a direct path has no active direct path at any time. *)
Theorem hasActiveDirectPath_hasDirectPath (x : Peer Identity) :
  (forall now : Z,
      Peer_.hasActiveDirectPath x now = true -> Peer_.hasDirectPath x = true)
  /\ (Peer_.hasDirectPath x = false ->
      forall now : Z, Peer_.hasActiveDirectPath x now = false).
Proof.
  assert (H : forall now : Z,
             Peer_.hasActiveDirectPath x now = true ->
             Peer_.hasDirectPath x = true).
  { intros now Hact. unfold Peer_.hasActiveDirectPath in Hact.
    unfold Peer_.hasDirectPath.
    apply orb_true_iff in Hact. apply orb_true_iff.
    destruct Hact as [Hact | Hact]; apply isActive_has_address in Hact; auto. }
  split; [exact H|].
  intros Hno now.
  destruct (Peer_.hasActiveDirectPath x now) eqn:E; [|reflexivity].
  apply H in E. congruence.
Qed.

(** X4: the two addresses of [findCommonGround] are both null or both
    non-null, and they are non-null exactly when both peers have an IPv6
    address or both have an IPv4 address on record: the time [now] decides
    which family is the result, never whether there is one.  The result is
    always the pair of one family's two records, or the null pair. *)
Theorem findCommonGround_null_iff (a b : Peer Identity) (now : Z) :
  let r := Peer_.findCommonGround a b now in
  InetAddress.to_bool (fst r) = InetAddress.to_bool (snd r)
  /\ InetAddress.to_bool (fst r)
     = (InetAddress.to_bool (addr (_ipv6p a))
        && InetAddress.to_bool (addr (_ipv6p b)))
       || (InetAddress.to_bool (addr (_ipv4p a))
           && InetAddress.to_bool (addr (_ipv4p b)))
  /\ (r = (addr (_ipv6p b), addr (_ipv6p a))
      \/ r = (addr (_ipv4p b), addr (_ipv4p a))
      \/ r = (InetAddress.Null, InetAddress.Null)).
Proof.
  cbv zeta. unfold Peer_.findCommonGround, WanPath_.isActive.
  destruct (InetAddress.to_bool (addr (_ipv6p a))) eqn:A6,
           (InetAddress.to_bool (addr (_ipv6p b))) eqn:B6,
           (InetAddress.to_bool (addr (_ipv4p a))) eqn:A4,
           (InetAddress.to_bool (addr (_ipv4p b))) eqn:B4;
    cbn [andb orb]; rewrite ?andb_false_r; cbn [andb orb];
    repeat match goal with
           | |- context [if ?c then _ else _] => destruct c
           end;
    cbn [fst snd InetAddress.to_bool]; rewrite ?A6, ?B6, ?A4, ?B4;
    repeat split; auto.
Qed.

(** X5: when no path of the peer is fixed and no receive time lies after
    [now], an active direct path at [now] means that the last direct receive
    is less than the activity timeout ago. *)
Theorem hasActiveDirectPath_recent (x : Peer Identity) (now : Z) :
  is_u64 now ->
  is_u64 (lastReceive (_ipv4p x)) -> is_u64 (lastReceive (_ipv6p x)) ->
  lastReceive (_ipv4p x) <= now -> lastReceive (_ipv6p x) <= now ->
  fixed (_ipv4p x) = false -> fixed (_ipv6p x) = false ->
  Peer_.hasActiveDirectPath x now = true ->
  now - Peer_.lastDirectReceive x < ZT_PEER_LINK_ACTIVITY_TIMEOUT.
Proof.
  intros Hn H4 H6 L4 L6 F4 F6 Hact.
  unfold Peer_.hasActiveDirectPath in Hact. unfold Peer_.lastDirectReceive.
  apply orb_true_iff in Hact.
  destruct Hact as [Hact | Hact]; apply isActive_true_iff in Hact;
    destruct Hact as [_ [Hfix | Hage]]; try congruence;
    rewrite sub64_past in Hage by assumption; lia.
Qed.

End PathProperties.

(** * Further properties of path forgetting and of the latency estimate *)

Section ForgetAndLatency.
Context {PF : Platform} {Identity : Type}.

(** X6: after [forgetDirectPaths(true)] the peer has no direct path, no
    active direct path at any time, and [findCommonGround] with any other
    peer, in either position, is the null pair. *)
Theorem forgetDirectPaths_true_no_paths (x : Peer Identity) :
  let y := Peer_.forgetDirectPaths true x in
  Peer_.hasDirectPath y = false
  /\ (forall now : Z, Peer_.hasActiveDirectPath y now = false)
  /\ (forall (z : Peer Identity) (now : Z),
        Peer_.findCommonGround y z now = (InetAddress.Null, InetAddress.Null)
        /\ Peer_.findCommonGround z y now
           = (InetAddress.Null, InetAddress.Null)).
Proof.
  destruct x as [k i [s4 r4 o4 p4 a4 f4] [s6 r6 o6 p6 a6 f6] u uf mf an ma mi re la].
  cbv zeta. split; [reflexivity|]. split; [reflexivity|].
  intros z now. split; [reflexivity|].
  unfold Peer_.findCommonGround, WanPath_.isActive. cbn.
  rewrite !andb_false_r. reflexivity.
Qed.

(** X7: [forgetDirectPaths] is idempotent, and forgetting the fixed paths
    too absorbs forgetting the learned ones, in either order. *)
Theorem forgetDirectPaths_idempotent (fixedToo : bool) (x : Peer Identity) :
  Peer_.forgetDirectPaths fixedToo (Peer_.forgetDirectPaths fixedToo x)
  = Peer_.forgetDirectPaths fixedToo x
  /\ Peer_.forgetDirectPaths true (Peer_.forgetDirectPaths false x)
     = Peer_.forgetDirectPaths true x
  /\ Peer_.forgetDirectPaths false (Peer_.forgetDirectPaths true x)
     = Peer_.forgetDirectPaths true x.
Proof.
  destruct x as [k i [s4 r4 o4 p4 a4 f4] [s6 r6 o6 p6 a6 f6] u uf mf an ma mi re la].
  destruct fixedToo, f4, f6; repeat split; reflexivity.
Qed.

(** X8: after [forgetDirectPaths(false)] every path that still has an
    address is fixed: the peer has an active direct path, at every time,
    exactly when it has a direct path, which is exactly when one of its
    fixed paths had an address. *)
Theorem forgetDirectPaths_false_keeps_fixed (x : Peer Identity) (now : Z) :
  let y := Peer_.forgetDirectPaths false x in
  Peer_.hasActiveDirectPath y now = Peer_.hasDirectPath y
  /\ Peer_.hasDirectPath y
     = (fixed (_ipv4p x) && InetAddress.to_bool (addr (_ipv4p x)))
       || (fixed (_ipv6p x) && InetAddress.to_bool (addr (_ipv6p x))).
Proof.
  destruct x as [k i [s4 r4 o4 p4 a4 f4] [s6 r6 o6 p6 a6 f6] u uf mf an ma mi re la].
  unfold Peer_.hasActiveDirectPath, Peer_.hasDirectPath, WanPath_.isActive.
  destruct f4, f6; cbn; rewrite ?andb_true_r; split; reflexivity.
Qed.

Lemma latency_step_bounded (l : Z) (x : Peer Identity) :
  is_u32 l -> is_u32 (_latency x) ->
  0 <= _latency (Peer_.addDirectLatencyMeasurment l x) <= 65535.
Proof.
  intros Hl Hol. unfold Peer_.addDirectLatencyMeasurment.
  rewrite (clamp16_u32 l Hl).
  destruct ((_latency x >? 0) && (_latency x <? 10000)) eqn:E.
  - apply andb_true_iff in E. destruct E as [E1 E2].
    apply Z.gtb_lt in E1. apply Z.ltb_lt in E2.
    cbn. unfold u32, clamp16.
    rewrite Z.mod_small by lia.
    split; [apply Z.div_pos; lia|].
    apply Z.div_le_upper_bound; lia.
  - cbn. unfold clamp16. lia.
Qed.

(** X9: whatever estimate was stored, after one or more samples the stored
    estimate lies in [0,65535], so [latency()] returns it unclamped. *)
Theorem latency_bounded_after_samples (samples : list Z) (x : Peer Identity) :
  Forall is_u32 samples -> is_u32 (_latency x) -> samples <> [] ->
  let y :=
    fold_left (fun p l => Peer_.addDirectLatencyMeasurment l p) samples x in
  0 <= _latency y <= 65535 /\ Peer_.latency y = _latency y.
Proof.
  intros Hs Hx Hne. cbv zeta.
  assert (Hkeep : forall (ls : list Z) (p : Peer Identity),
             Forall is_u32 ls -> 0 <= _latency p <= 65535 ->
             0 <= _latency
                    (fold_left
                       (fun q l => Peer_.addDirectLatencyMeasurment l q) ls p)
             <= 65535).
  { induction ls as [| l ls IH]; intros p Hls Hp; [exact Hp|].
    cbn [fold_left]. inversion Hls as [| ? ? Hl Hrest]; subst.
    apply IH; [assumption|].
    apply latency_step_bounded; [assumption | unfold is_u32; lia]. }
  destruct samples as [| l ls]; [contradiction|].
  inversion Hs as [| ? ? Hl Hrest]; subst.
  cbn [fold_left].
  pose proof (Hkeep ls (Peer_.addDirectLatencyMeasurment l x) Hrest
                (latency_step_bounded l x Hl Hx)) as Hb.
  split; [exact Hb|].
  unfold Peer_.latency. lia.
Qed.

(** X10: [addDirectLatencyMeasurment] changes the latency member only.  When
    it averages, the new estimate lies between the old estimate and the
    clamped sample; and a sample equal to the stored estimate leaves the
    estimate as it is. *)
Theorem addDirectLatencyMeasurment_between (l : Z) (x : Peer Identity) :
  is_u32 l -> is_u32 (_latency x) ->
  let y := Peer_.addDirectLatencyMeasurment l x in
  y = set_latency (_latency y) x
  /\ (0 < _latency x < 10000 ->
      Z.min (_latency x) (clamp16 l) <= _latency y
      <= Z.max (_latency x) (clamp16 l))
  /\ (_latency x = clamp16 l -> _latency y = _latency x).
Proof.
  intros Hl Hol. cbv zeta. unfold Peer_.addDirectLatencyMeasurment.
  rewrite (clamp16_u32 l Hl).
  assert (Hc : 0 <= clamp16 l <= 65535) by (unfold clamp16; lia).
  destruct ((_latency x >? 0) && (_latency x <? 10000)) eqn:E.
  - apply andb_true_iff in E. destruct E as [E1 E2].
    apply Z.gtb_lt in E1. apply Z.ltb_lt in E2.
    cbn. unfold u32. rewrite Z.mod_small by lia.
    split; [reflexivity|]. split.
    + intros _. split.
      * apply Z.div_le_lower_bound; lia.
      * apply Z.div_le_upper_bound; lia.
    + intros Heq. rewrite <- Heq.
      replace (_latency x + _latency x) with (_latency x * 2) by ring.
      apply Z.div_mul. lia.
  - cbn. split; [reflexivity|]. split.
    + intros Hin.
      apply andb_false_iff in E.
      destruct E as [E | E];
        [rewrite Z.gtb_ltb in E; apply Z.ltb_ge in E | apply Z.ltb_ge in E];
        lia.
    + intros Heq. symmetry. exact Heq.
Qed.

End ForgetAndLatency.

(** * Further properties of the codec *)

Lemma byte_of_Z_congr (a b : Z) :
  a mod 256 = b mod 256 -> byte_of_Z a = byte_of_Z b.
Proof.
  intros H. unfold byte_of_Z, u8. change (2 ^ 8) with 256.
  rewrite H. reflexivity.
Qed.

Lemma be_encode_mod (n : nat) (v : Z) :
  Buffer.be_encode n (v mod 256 ^ Z.of_nat n) = Buffer.be_encode n v.
Proof.
  revert v. induction n as [| n IH]; intros v; [reflexivity|].
  cbn [Buffer.be_encode].
  rewrite Nat2Z.inj_succ, Z.pow_succ_r by lia.
  assert (Hm : 0 < 256 ^ Z.of_nat n) by (apply Z.pow_pos_nonneg; lia).
  rewrite (Z.rem_mul_r v 256 (256 ^ Z.of_nat n)) by lia.
  pose proof (Z.mod_pos_bound v 256 ltac:(lia)) as Hr.
  f_equal.
  - rewrite <- (IH (v / 256)). f_equal.
    rewrite (Z.mul_comm 256), Z.div_add by lia.
    rewrite (Z.div_small (v mod 256)) by lia. reflexivity.
  - f_equal. apply byte_of_Z_congr.
    rewrite (Z.mul_comm 256), Z.mod_add by lia.
    apply Z.mod_mod. lia.
Qed.

Lemma be_encode_u16 (v : Z) :
  Buffer.be_encode 2 (u16 v) = Buffer.be_encode 2 v.
Proof. exact (be_encode_mod 2 v). Qed.

Section CodecProperties.
Context {PF : Platform} {Identity : Type} {IC : IdentityCodec Identity}.

(** X11: the round trip of one path block.  Decoding what
    [WanPath::serialize] appended, into any target, leaves the serialized
    path in the target and returns the number of bytes appended. *)
Theorem WanPath_serialize_deserialize (C : Z) (w w0 : WanPath)
    (b b' : Buffer.t) :
  type_codes_ok -> C < 2 ^ 32 -> WanPath_wf w ->
  WanPath_.serialize C w b = (b', Ok tt) ->
  WanPath_.deserialize b' (Buffer.size b) w0
  = (w, Ok (Buffer.size b' - Buffer.size b)).
Proof.
  intros Hcodes HC Hwf Hser.
  destruct (WanPath_serialize_Ok_inv C w b b' Hser) as [Hb' Hcap].
  assert (Hsuf : suffix_at b' (Buffer.size b) (WanPath_bytes w ++ [])).
  { exists b. rewrite app_nil_r. split; [assumption | reflexivity]. }
  rewrite (WanPath_deserialize_bytes b' _ w w0 [] Hcodes Hwf)
    by (lia || exact Hsuf).
  rewrite Hb', size_app. do 2 f_equal. lia.
Qed.

Lemma narrow16_id (x : Peer Identity) :
  Peer_wf x ->
  (narrow16 x = x <->
   is_u16 (_vMajor x) /\ is_u16 (_vMinor x) /\ is_u16 (_vRevision x)
   /\ is_u16 (_latency x)).
Proof.
  intros (_ & _ & _ & _ & _ & _ & _ & Hma & Hmi & Hre & Hla).
  destruct x as [k i w4 w6 u uf mf an ma mi re la].
  unfold narrow16, u16, is_u16, is_u32 in *.
  cbn [_key _id _ipv4p _ipv6p _lastUsed _lastUnicastFrame
       _lastMulticastFrame _lastAnnouncedTo _vMajor _vMinor _vRevision
       _latency] in *.
  split.
  - intros H. injection H as H1 H2 H3 H4.
    pose proof (Z.mod_pos_bound ma (2 ^ 16) ltac:(lia)).
    pose proof (Z.mod_pos_bound mi (2 ^ 16) ltac:(lia)).
    pose proof (Z.mod_pos_bound re (2 ^ 16) ltac:(lia)).
    pose proof (Z.mod_pos_bound la (2 ^ 16) ltac:(lia)).
    lia.
  - intros (H1 & H2 & H3 & H4).
    rewrite !Z.mod_small by assumption. reflexivity.
Qed.

Lemma serialize_narrow16 (C : Z) (x : Peer Identity) (b : Buffer.t) :
  Peer_.serialize C (narrow16 x) b = Peer_.serialize C x b.
Proof.
  unfold Peer_.serialize, narrow16, Buffer.append16.
  cbn [_key _id _ipv4p _ipv6p _lastUsed _lastUnicastFrame
       _lastMulticastFrame _lastAnnouncedTo _vMajor _vMinor _vRevision
       _latency].
  rewrite !be_encode_u16. reflexivity.
Qed.

(** X12: the round trip of every record, wide members included.  Decoding
    what [serialize] appended leaves in the target the serialized record
    with its version components and latency reduced modulo 2^16 (the record
    itself exactly when the four fit in 16 bits) and returns the number of
    bytes appended; serializing the decoded record gives the same bytes
    again. *)
Theorem serialize_deserialize_narrow16 (C : Z) (x x0 : Peer Identity)
    (b b' : Buffer.t) :
  type_codes_ok -> id_codec_ok -> C < 2 ^ 32 -> Peer_wf x ->
  Peer_.serialize C x b = (b', Ok tt) ->
  Peer_.deserialize b' (Buffer.size b) x0
  = (narrow16 x, Ok (Buffer.size b' - Buffer.size b))
  /\ Peer_.serialize C (narrow16 x) b = (b', Ok tt)
  /\ (narrow16 x = x <->
      is_u16 (_vMajor x) /\ is_u16 (_vMinor x) /\ is_u16 (_vRevision x)
      /\ is_u16 (_latency x)).
Proof.
  intros Hcodes Hid HC Hwf Hser.
  destruct (Peer_serialize_Ok_inv C x b b' Hser) as [Hb' Hcap].
  assert (Hsuf : suffix_at b' (Buffer.size b) (Peer_bytes x ++ [])).
  { exists b. rewrite app_nil_r. split; [assumption | reflexivity]. }
  split; [|split].
  - rewrite (Peer_deserialize_bytes b' _ x x0 [] Hcodes Hid Hwf)
      by (lia || exact Hsuf).
    rewrite Hb', size_app. do 2 f_equal. lia.
  - rewrite serialize_narrow16. exact Hser.
  - apply narrow16_id. exact Hwf.
Qed.

(** X13: two records serialized one after the other are decoded one after
    the other: decoding at the start of the first gives the first and its
    length, and decoding at the position after it gives the second and its
    length (the 16-bit members reduced modulo 2^16). *)
Theorem deserialize_consecutive_records (C : Z) (x y x0 y0 : Peer Identity)
    (b b1 b2 : Buffer.t) :
  type_codes_ok -> id_codec_ok -> C < 2 ^ 32 -> Peer_wf x -> Peer_wf y ->
  Peer_.serialize C x b = (b1, Ok tt) ->
  Peer_.serialize C y b1 = (b2, Ok tt) ->
  exists n m : Z,
    Peer_.deserialize b2 (Buffer.size b) x0 = (narrow16 x, Ok n)
    /\ Peer_.deserialize b2 (Buffer.size b + n) y0 = (narrow16 y, Ok m)
    /\ Buffer.size b + n + m = Buffer.size b2.
Proof.
  intros Hcodes Hid HC Hx Hy Hs1 Hs2.
  destruct (Peer_serialize_Ok_inv C x b b1 Hs1) as [Hb1 _].
  destruct (Peer_serialize_Ok_inv C y b1 b2 Hs2) as [Hb2 Hcap].
  exists (Buffer.size (Peer_bytes x)), (Buffer.size (Peer_bytes y)).
  assert (H1 : suffix_at b2 (Buffer.size b) (Peer_bytes x ++ Peer_bytes y)).
  { exists b. rewrite Hb2, Hb1, <- app_assoc. split; reflexivity. }
  assert (H2 : suffix_at b2 (Buffer.size b + Buffer.size (Peer_bytes x))
                 (Peer_bytes y ++ [])).
  { exists b1. split; [rewrite app_nil_r; exact Hb2|].
    rewrite Hb1, size_app. reflexivity. }
  split; [|split].
  - apply (Peer_deserialize_bytes b2 _ x x0 (Peer_bytes y) Hcodes Hid Hx);
      [lia | exact H1].
  - apply (Peer_deserialize_bytes b2 _ y y0 [] Hcodes Hid Hy);
      [lia | exact H2].
  - rewrite Hb2, Hb1, !size_app. lia.
Qed.

(** X14: the encoding determines the record.  Two records whose
    serializations onto the same buffer give the same bytes are equal in
    every member, the version components and latency up to their reduction
    modulo 2^16. *)
Theorem serialize_injective (C : Z) (x y : Peer Identity) (b b' : Buffer.t) :
  type_codes_ok -> id_codec_ok -> C < 2 ^ 32 -> Peer_wf x -> Peer_wf y ->
  Peer_.serialize C x b = (b', Ok tt) ->
  Peer_.serialize C y b = (b', Ok tt) ->
  narrow16 x = narrow16 y.
Proof.
  intros Hcodes Hid HC Hx Hy Hsx Hsy.
  destruct (Peer_serialize_Ok_inv C x b b' Hsx) as [Hbx Hcap].
  destruct (Peer_serialize_Ok_inv C y b b' Hsy) as [Hby _].
  assert (Hdx : Peer_.deserialize b' (Buffer.size b) x
                = (narrow16 x, Ok (Buffer.size (Peer_bytes x)))).
  { apply (Peer_deserialize_bytes b' _ x x [] Hcodes Hid Hx); [lia|].
    exists b. rewrite app_nil_r. split; [assumption | reflexivity]. }
  assert (Hdy : Peer_.deserialize b' (Buffer.size b) x
                = (narrow16 y, Ok (Buffer.size (Peer_bytes y)))).
  { apply (Peer_deserialize_bytes b' _ y x [] Hcodes Hid Hy); [lia|].
    exists b. rewrite app_nil_r. split; [assumption | reflexivity]. }
  rewrite Hdx in Hdy. apply (f_equal fst) in Hdy. exact Hdy.
Qed.

End CodecProperties.

(** ** Capacity *)

Lemma writes_ret (C : Z) : writes C (ret tt) [].
Proof.
  intros b Hb. split.
  - intros _. unfold ret. rewrite app_nil_r. reflexivity.
  - intros H. unfold Buffer.size in *. cbn [length] in H. lia.
Qed.

Lemma writes_append_bytes (C : Z) (data : list byte) (l : Z) :
  Buffer.size (firstn (Z.to_nat l) data) = l ->
  writes C (Buffer.append_bytes C data l) (firstn (Z.to_nat l) data).
Proof.
  intros Hl b Hb. rewrite Hl. unfold Buffer.append_bytes.
  destruct (Z.leb_spec (Buffer.size b + l) C) as [Hfit | Hover]; split;
    intros H; try lia.
  - reflexivity.
  - exists [], (firstn (Z.to_nat l) data).
    rewrite app_nil_r. unfold Buffer.size at 2. cbn [length].
    repeat split; (reflexivity || lia).
Qed.

Lemma writes_append_int (C : Z) (n : nat) (v : Z) :
  writes C (Buffer.append_bytes C (Buffer.be_encode n v) (Z.of_nat n))
    (Buffer.be_encode n v).
Proof.
  rewrite <- (firstn_be_encode n v) at 2.
  rewrite <- (Nat2Z.id n) at 3.
  apply writes_append_bytes.
  rewrite Nat2Z.id, firstn_be_encode. apply size_be_encode.
Qed.

Lemma writes_append_all (C : Z) (data : list byte) :
  writes C (Buffer.append_bytes C data (Buffer.size data)) data.
Proof.
  rewrite <- (firstn_size data) at 3.
  apply writes_append_bytes. rewrite firstn_size. reflexivity.
Qed.

Lemma writes_bind (C : Z) (m1 m2 : M Buffer.t unit) (e1 e2 : list byte) :
  writes C m1 e1 -> writes C m2 e2 ->
  writes C (m1 ;;; m2) (e1 ++ e2).
Proof.
  intros H1 H2 b Hb.
  pose proof (size_nonneg e1) as N1. pose proof (size_nonneg e2) as N2.
  rewrite size_app.
  destruct (H1 b Hb) as [Hfit1 Hover1].
  split.
  - intros Hfit.
    rewrite (bind_run_Ok m1 _ b (b ++ e1) tt) by (apply Hfit1; lia).
    assert (Hb1 : Buffer.size (b ++ e1) <= C) by (rewrite size_app; lia).
    destruct (H2 (b ++ e1) Hb1) as [Hfit2 _].
    rewrite Hfit2 by (rewrite size_app; lia).
    rewrite <- app_assoc. reflexivity.
  - intros Hover.
    destruct (Z_le_gt_dec (Buffer.size b + Buffer.size e1) C) as [Hle | Hgt].
    + rewrite (bind_run_Ok m1 _ b (b ++ e1) tt) by (apply Hfit1; lia).
      assert (Hb1 : Buffer.size (b ++ e1) <= C) by (rewrite size_app; lia).
      destruct (H2 (b ++ e1) Hb1) as [_ Hover2].
      destruct Hover2 as (t & u & He2 & Ht & Hrun);
        [rewrite size_app; lia|].
      exists (e1 ++ t), u. rewrite He2, <- !app_assoc.
      split; [reflexivity|]. split.
      * rewrite !size_app in *. lia.
      * rewrite Hrun, <- app_assoc. reflexivity.
    + destruct Hover1 as (t & u & He1 & Ht & Hrun); [lia|].
      exists t, (u ++ e2). rewrite He1, <- app_assoc.
      split; [reflexivity|]. split; [assumption|].
      unfold bind. rewrite Hrun. reflexivity.
Qed.

Section Capacity.
Context {PF : Platform} {Identity : Type} {IC : IdentityCodec Identity}.

Lemma WanPath_serialize_writes (C : Z) (w : WanPath) :
  InetAddress.wf (addr w) ->
  writes C (WanPath_.serialize C w) (WanPath_bytes w).
Proof.
  intros Hwf. unfold WanPath_.serialize, WanPath_bytes.
  apply writes_bind; [apply (writes_append_int C 8)|].
  apply writes_bind; [apply (writes_append_int C 8)|].
  apply writes_bind; [apply (writes_append_int C 8)|].
  apply writes_bind; [apply (writes_append_int C 8)|].
  apply writes_bind; [apply (writes_append_int C 1)|].
  apply writes_bind; [|apply (writes_append_int C 1)].
  unfold addr_payload.
  destruct (addr w) as [| ip port | ip port];
    cbn [InetAddress.type InetAddress.rawIpData InetAddress.port
         InetAddress.wf] in *.
  - apply writes_ret.
  - destruct Hwf as [Hlen _].
    apply writes_bind; [|apply (writes_append_int C 2)].
    apply (writes_append_bytes C ip 4).
    change (Z.to_nat 4) with 4%nat. rewrite <- Hlen, firstn_all.
    unfold Buffer.size. lia.
  - destruct Hwf as [Hlen _].
    apply writes_bind; [|apply (writes_append_int C 2)].
    apply (writes_append_bytes C ip 16).
    change (Z.to_nat 16) with 16%nat. rewrite <- Hlen, firstn_all.
    unfold Buffer.size. lia.
Qed.

Lemma Peer_serialize_writes (C : Z) (x : Peer Identity) :
  Peer_wf x -> writes C (Peer_.serialize C x) (Peer_bytes x).
Proof.
  intros (Hk & (_ & _ & _ & _ & Ha4) & (_ & _ & _ & _ & Ha6) & _).
  unfold Peer_.serialize, Peer_bytes.
  apply writes_bind; [apply (writes_append_int C 1)|].
  apply writes_bind.
  { apply writes_append_bytes. rewrite <- Hk, firstn_size. reflexivity. }
  apply writes_bind; [apply writes_append_all|].
  apply writes_bind; [apply WanPath_serialize_writes; assumption|].
  apply writes_bind; [apply WanPath_serialize_writes; assumption|].
  apply writes_bind; [apply (writes_append_int C 8)|].
  apply writes_bind; [apply (writes_append_int C 8)|].
  apply writes_bind; [apply (writes_append_int C 8)|].
  apply writes_bind; [apply (writes_append_int C 8)|].
  apply writes_bind; [apply (writes_append_int C 2)|].
  apply writes_bind; [apply (writes_append_int C 2)|].
  apply writes_bind; [apply (writes_append_int C 2)|].
  apply (writes_append_int C 2).
Qed.

End Capacity.

(** ** Member by member *)

Lemma members_ret (C : Z) : writes_members C (ret tt) [].
Proof.
  intros b Hb. cbn [concat]. split.
  - intros _. unfold ret. rewrite app_nil_r. reflexivity.
  - intros H. unfold Buffer.size in *. cbn [length] in H. lia.
Qed.

Lemma members_append_bytes (C : Z) (data : list byte) (l : Z) :
  Buffer.size (firstn (Z.to_nat l) data) = l ->
  writes_members C (Buffer.append_bytes C data l) [firstn (Z.to_nat l) data].
Proof.
  intros Hl b Hb. cbn [concat]. rewrite app_nil_r, Hl.
  unfold Buffer.append_bytes.
  destruct (Z.leb_spec (Buffer.size b + l) C) as [Hfit | Hover]; split;
    intros H; try lia.
  - reflexivity.
  - exists [], (firstn (Z.to_nat l) data), [].
    cbn [concat app]. rewrite app_nil_r, Hl.
    change (Buffer.size (@nil byte)) with 0.
    repeat split; (reflexivity || lia).
Qed.

Lemma members_append_int (C : Z) (n : nat) (v : Z) :
  writes_members C
    (Buffer.append_bytes C (Buffer.be_encode n v) (Z.of_nat n))
    [Buffer.be_encode n v].
Proof.
  rewrite <- (firstn_be_encode n v) at 2.
  rewrite <- (Nat2Z.id n) at 3.
  apply members_append_bytes.
  rewrite Nat2Z.id, firstn_be_encode. apply size_be_encode.
Qed.

Lemma members_append_all (C : Z) (data : list byte) :
  writes_members C (Buffer.append_bytes C data (Buffer.size data)) [data].
Proof.
  rewrite <- (firstn_size data) at 3.
  apply members_append_bytes. rewrite firstn_size. reflexivity.
Qed.

Lemma members_bind (C : Z) (m1 m2 : M Buffer.t unit)
    (cs1 cs2 : list (list byte)) :
  writes_members C m1 cs1 -> writes_members C m2 cs2 ->
  writes_members C (m1 ;;; m2) (cs1 ++ cs2).
Proof.
  intros H1 H2 b Hb.
  pose proof (size_nonneg (concat cs1)) as N1.
  pose proof (size_nonneg (concat cs2)) as N2.
  rewrite concat_app, size_app.
  destruct (H1 b Hb) as [Hfit1 Hover1].
  split.
  - intros Hfit.
    rewrite (bind_run_Ok m1 _ b (b ++ concat cs1) tt) by (apply Hfit1; lia).
    assert (Hb1 : Buffer.size (b ++ concat cs1) <= C)
      by (rewrite size_app; lia).
    destruct (H2 (b ++ concat cs1) Hb1) as [Hfit2 _].
    rewrite Hfit2 by (rewrite size_app; lia).
    rewrite <- app_assoc. reflexivity.
  - intros Hover.
    destruct (Z_le_gt_dec (Buffer.size b + Buffer.size (concat cs1)) C)
      as [Hle | Hgt].
    + rewrite (bind_run_Ok m1 _ b (b ++ concat cs1) tt) by (apply Hfit1; lia).
      assert (Hb1 : Buffer.size (b ++ concat cs1) <= C)
        by (rewrite size_app; lia).
      destruct (H2 (b ++ concat cs1) Hb1) as [_ Hover2].
      destruct Hover2 as (done & c & rest & Hcs & Hdone & Hc & Hrun);
        [rewrite size_app; lia|].
      exists (cs1 ++ done), c, rest.
      rewrite Hcs, <- app_assoc, concat_app, !size_app.
      rewrite size_app in Hdone, Hc.
      split; [reflexivity|]. split; [lia|]. split; [lia|].
      rewrite Hrun, <- app_assoc. reflexivity.
    + destruct Hover1 as (done & c & rest & Hcs & Hdone & Hc & Hrun); [lia|].
      exists done, c, (rest ++ cs2).
      rewrite Hcs, <- app_assoc.
      split; [reflexivity|]. split; [assumption|]. split; [assumption|].
      unfold bind. rewrite Hrun. reflexivity.
Qed.

Lemma members_cons (C : Z) (m1 m2 : M Buffer.t unit) (c : list byte)
    (cs : list (list byte)) :
  writes_members C m1 [c] -> writes_members C m2 cs ->
  writes_members C (m1 ;;; m2) (c :: cs).
Proof.
  intros H1 H2. exact (members_bind C m1 m2 [c] cs H1 H2).
Qed.

Lemma concat_addr_chunks (a : InetAddress.t) :
  concat (addr_chunks a) = addr_payload a.
Proof.
  unfold addr_chunks, addr_payload.
  destruct (InetAddress.type a); cbn [concat]; rewrite ?app_nil_r;
    reflexivity.
Qed.

Section Members.
Context {PF : Platform} {Identity : Type} {IC : IdentityCodec Identity}.

Lemma concat_WanPath_chunks (w : WanPath) :
  concat (WanPath_chunks w) = WanPath_bytes w.
Proof.
  unfold WanPath_chunks, WanPath_bytes. cbn [concat].
  rewrite concat_app, concat_addr_chunks. cbn [concat].
  rewrite app_nil_r. reflexivity.
Qed.

Lemma concat_Peer_chunks (x : Peer Identity) :
  concat (Peer_chunks x) = Peer_bytes x.
Proof.
  unfold Peer_chunks, Peer_bytes. cbn [concat].
  rewrite !concat_app, !concat_WanPath_chunks. cbn [concat].
  rewrite app_nil_r. reflexivity.
Qed.

Lemma WanPath_serialize_members (C : Z) (w : WanPath) :
  InetAddress.wf (addr w) ->
  writes_members C (WanPath_.serialize C w) (WanPath_chunks w).
Proof.
  intros Hwf. unfold WanPath_.serialize, WanPath_chunks.
  apply members_cons; [apply (members_append_int C 8)|].
  apply members_cons; [apply (members_append_int C 8)|].
  apply members_cons; [apply (members_append_int C 8)|].
  apply members_cons; [apply (members_append_int C 8)|].
  apply members_cons; [apply (members_append_int C 1)|].
  apply members_bind; [|apply (members_append_int C 1)].
  unfold addr_chunks.
  destruct (addr w) as [| ip port | ip port];
    cbn [InetAddress.type InetAddress.rawIpData InetAddress.port
         InetAddress.wf] in *.
  - apply members_ret.
  - destruct Hwf as [Hlen _].
    apply members_cons; [|apply (members_append_int C 2)].
    apply (members_append_bytes C ip 4).
    change (Z.to_nat 4) with 4%nat. rewrite <- Hlen, firstn_all.
    unfold Buffer.size. lia.
  - destruct Hwf as [Hlen _].
    apply members_cons; [|apply (members_append_int C 2)].
    apply (members_append_bytes C ip 16).
    change (Z.to_nat 16) with 16%nat. rewrite <- Hlen, firstn_all.
    unfold Buffer.size. lia.
Qed.

Lemma Peer_serialize_members (C : Z) (x : Peer Identity) :
  Peer_wf x -> writes_members C (Peer_.serialize C x) (Peer_chunks x).
Proof.
  intros (Hk & (_ & _ & _ & _ & Ha4) & (_ & _ & _ & _ & Ha6) & _).
  unfold Peer_.serialize, Peer_chunks.
  apply members_cons; [apply (members_append_int C 1)|].
  apply members_cons.
  { apply members_append_bytes. rewrite <- Hk, firstn_size. reflexivity. }
  apply members_cons; [apply members_append_all|].
  apply members_bind; [apply WanPath_serialize_members; assumption|].
  apply members_bind; [apply WanPath_serialize_members; assumption|].
  apply members_cons; [apply (members_append_int C 8)|].
  apply members_cons; [apply (members_append_int C 8)|].
  apply members_cons; [apply (members_append_int C 8)|].
  apply members_cons; [apply (members_append_int C 8)|].
  apply members_cons; [apply (members_append_int C 2)|].
  apply members_cons; [apply (members_append_int C 2)|].
  apply members_cons; [apply (members_append_int C 2)|].
  apply (members_append_int C 2).
Qed.

End Members.

Section CapacityProperties.
Context {PF : Platform} {Identity : Type} {IC : IdentityCodec Identity}.

(** X15: on a buffer within its capacity, [serialize] succeeds exactly when
    the whole encoding fits in what is left of the capacity, and it then
    appends the encoding and nothing else. *)
Theorem serialize_succeeds_iff_fits (C : Z) (x : Peer Identity)
    (b : Buffer.t) :
  Peer_wf x -> Buffer.size b <= C ->
  (Buffer.size b + Buffer.size (Peer_bytes x) <= C ->
   Peer_.serialize C x b = (b ++ Peer_bytes x, Ok tt))
  /\ ((exists b' : Buffer.t, Peer_.serialize C x b = (b', Ok tt)) ->
      Buffer.size b + Buffer.size (Peer_bytes x) <= C).
Proof.
  intros Hwf Hb.
  destruct (Peer_serialize_writes C x Hwf b Hb) as [Hfit _].
  split; [exact Hfit|].
  intros [b' Hrun].
  apply Peer_serialize_Ok_inv in Hrun. destruct Hrun as [-> Hcap].
  rewrite size_app in Hcap. exact Hcap.
Qed.

(** X16: when the encoding does not fit, [serialize] throws
    [std::out_of_range] at the first member (the byte run of one [append]
    call, the identity's bytes being one member) that does not fit in what
    is left of the capacity, and leaves the buffer extended by exactly the
    members before it, whole and in order; the members together are the
    encoding. *)
Theorem serialize_overflow (C : Z) (x : Peer Identity) (b : Buffer.t) :
  Peer_wf x -> Buffer.size b <= C ->
  C < Buffer.size b + Buffer.size (Peer_bytes x) ->
  concat (Peer_chunks x) = Peer_bytes x
  /\ exists (done : list (list byte)) (c : list byte)
            (rest : list (list byte)),
      Peer_chunks x = done ++ c :: rest
      /\ Buffer.size b + Buffer.size (concat done) <= C
      /\ C < Buffer.size b + Buffer.size (concat done) + Buffer.size c
      /\ Peer_.serialize C x b = (b ++ concat done, Throw out_of_range).
Proof.
  intros Hwf Hb Hover.
  split; [apply concat_Peer_chunks|].
  destruct (Peer_serialize_members C x Hwf b Hb) as [_ Hthrow].
  apply Hthrow. rewrite concat_Peer_chunks. exact Hover.
Qed.

Lemma WanPath_bytes_size (w : WanPath) :
  InetAddress.wf (addr w) ->
  Buffer.size (WanPath_bytes w)
  = 34 + match addr w with
         | InetAddress.Null => 0
         | InetAddress.IPv4 _ _ => 6
         | InetAddress.IPv6 _ _ => 18
         end.
Proof.
  intros Hwf. unfold WanPath_bytes, addr_payload.
  rewrite !size_app, !size_be_encode.
  destruct (addr w) as [| ip port | ip port];
    cbn [InetAddress.type InetAddress.rawIpData InetAddress.port
         InetAddress.wf] in *.
  - unfold Buffer.size. cbn [length]. lia.
  - destruct Hwf as [Hlen _].
    rewrite size_app, size_be_encode, <- Hlen, firstn_all.
    unfold Buffer.size. lia.
  - destruct Hwf as [Hlen _].
    rewrite size_app, size_be_encode, <- Hlen, firstn_all.
    unfold Buffer.size. lia.
Qed.

(** X17: the length of an encoding.  A path block takes 34 bytes and 0, 6 or
    18 more for a null, IPv4 or IPv6 address; a record takes 73 bytes, the
    identity's bytes, and its two path blocks. *)
Theorem serialize_length (C : Z) (x : Peer Identity) (b b' : Buffer.t) :
  Peer_wf x ->
  Peer_.serialize C x b = (b', Ok tt) ->
  let block (w : WanPath) :=
    34 + match addr w with
         | InetAddress.Null => 0
         | InetAddress.IPv4 _ _ => 6
         | InetAddress.IPv6 _ _ => 18
         end in
  Buffer.size b'
  = Buffer.size b + 73 + Buffer.size (id_bytes (_id x) false)
    + block (_ipv4p x) + block (_ipv6p x).
Proof.
  intros Hwf Hrun. cbv zeta.
  apply Peer_serialize_Ok_inv in Hrun. destruct Hrun as [-> _].
  destruct Hwf as (Hk & (_ & _ & _ & _ & Ha4) & (_ & _ & _ & _ & Ha6) & _).
  unfold Peer_bytes. rewrite <- Hk, firstn_size.
  rewrite !size_app, !size_be_encode, Hk.
  rewrite (WanPath_bytes_size _ Ha4), (WanPath_bytes_size _ Ha6).
  unfold ZT_PEER_SECRET_KEY_LENGTH. lia.
Qed.

End CapacityProperties.

(** ** Decoding short or foreign buffers *)

Lemma field_Ok_bound (b : Buffer.t) (i l : Z) (bs : list byte) :
  Buffer.field b i l = Ok bs -> i + l <= Buffer.size b.
Proof.
  unfold Buffer.field.
  destruct (Z.leb_spec (i + l) (Buffer.size b)); [lia | discriminate].
Qed.

Lemma at_n_Ok_bound (n : Z) (b : Buffer.t) (i v : Z) :
  Buffer.at_n n b i = Ok v -> i + n <= Buffer.size b.
Proof.
  unfold Buffer.at_n. destruct (Buffer.field b i n) eqn:F; [|discriminate].
  intros _. eapply field_Ok_bound. eassumption.
Qed.

Section DecodingProperties.
Context {PF : Platform} {Identity : Type} {IC : IdentityCodec Identity}.

(** X18: [deserialize] on a buffer with fewer than 33 bytes from the
    starting position (too short for the version byte and the key) throws
    and leaves the target record as it was. *)
Theorem deserialize_too_short (b : Buffer.t) (startAt : Z)
    (x : Peer Identity) :
  0 <= startAt -> Buffer.size b < 2 ^ 32 ->
  Buffer.size b < startAt + 33 ->
  fst (Peer_.deserialize b startAt x) = x
  /\ exists e : exn, snd (Peer_.deserialize b startAt x) = Throw e.
Proof.
  intros H0 Hsz Hshort. unfold Peer_.deserialize.
  destruct (Buffer.index b startAt) as [v | e] eqn:Hi.
  - rewrite bind_lift_Ok.
    destruct (negb (Z_of_byte v =? ZT_PEER_SERIALIZATION_VERSION)).
    + split; [reflexivity | eexists; reflexivity].
    + apply index_Ok_bound in Hi.
      rewrite (add32_small startAt 1) by lia.
      assert (Hf : Buffer.field b (startAt + 1) ZT_PEER_SECRET_KEY_LENGTH
                   = Throw out_of_range).
      { unfold Buffer.field.
        destruct (Z.leb_spec (startAt + 1 + ZT_PEER_SECRET_KEY_LENGTH)
                    (Buffer.size b)) as [Hle | _]; [|reflexivity].
        unfold ZT_PEER_SECRET_KEY_LENGTH in Hle. lia. }
      rewrite Hf, bind_lift_Throw.
      split; [reflexivity | eexists; reflexivity].
  - rewrite bind_lift_Throw. split; [reflexivity | eexists; reflexivity].
Qed.

(** X19: [deserialize] succeeds only on a buffer whose byte at the starting
    position is [ZT_PEER_SERIALIZATION_VERSION]. *)
Theorem deserialize_Ok_version (b : Buffer.t) (startAt n : Z)
    (x x' : Peer Identity) :
  Peer_.deserialize b startAt x = (x', Ok n) ->
  exists v : byte,
    Buffer.index b startAt = Ok v
    /\ Z_of_byte v = ZT_PEER_SERIALIZATION_VERSION.
Proof.
  unfold Peer_.deserialize. intros H.
  destruct (Buffer.index b startAt) as [v | e] eqn:Hi.
  - exists v. split; [reflexivity|].
    rewrite bind_lift_Ok in H.
    destruct (Z.eqb_spec (Z_of_byte v) ZT_PEER_SERIALIZATION_VERSION)
      as [E | _]; [exact E|].
    cbn [negb] in H. discriminate H.
  - rewrite bind_lift_Throw in H. discriminate H.
Qed.

Lemma deserialize_addr_Ok (b : Buffer.t) (tag p p' : Z) (w w' : WanPath) :
  0 <= p -> p <= Buffer.size b -> Buffer.size b < 2 ^ 32 ->
  WanPath_.deserialize_addr b tag p w = (w', Ok p') ->
  p' = p + payload_length tag /\ p' <= Buffer.size b.
Proof.
  intros H0 Hp Hsz. unfold WanPath_.deserialize_addr, payload_length.
  destruct (tag =? type_code InetAddress.TYPE_NULL).
  { unfold bind, assign, ret. intros H. injection H as _ <-. lia. }
  destruct (tag =? type_code InetAddress.TYPE_IPV4).
  { unfold bind, lift, assign, ret.
    destruct (Buffer.field b p 4) as [ip |] eqn:F; [|discriminate].
    apply field_Ok_bound in F.
    rewrite (add32_small p 4) by lia.
    destruct (Buffer.at16 b (p + 4)) as [port |] eqn:A; [|discriminate].
    apply at_n_Ok_bound in A.
    intros H. injection H as _ <-.
    rewrite add32_small by lia. lia. }
  destruct (tag =? type_code InetAddress.TYPE_IPV6).
  { unfold bind, lift, assign, ret.
    destruct (Buffer.field b p 16) as [ip |] eqn:F; [|discriminate].
    apply field_Ok_bound in F.
    rewrite (add32_small p 16) by lia.
    destruct (Buffer.at16 b (p + 16)) as [port |] eqn:A; [|discriminate].
    apply at_n_Ok_bound in A.
    intros H. injection H as _ <-.
    rewrite add32_small by lia. lia. }
  unfold ret. intros H. injection H as _ <-. lia.
Qed.

(** X20: when [WanPath::deserialize] succeeds, the count it returns is 34
    plus the payload length that the tag byte selects (34, 40 or 52), and
    the bytes consumed lie within the buffer. *)
Theorem WanPath_deserialize_Ok_bounds (b : Buffer.t) (startAt n : Z)
    (w w' : WanPath) :
  0 <= startAt -> Buffer.size b < 2 ^ 32 ->
  WanPath_.deserialize b startAt w = (w', Ok n) ->
  exists tag : byte,
    Buffer.index b (startAt + 32) = Ok tag
    /\ n = 34 + payload_length (Z_of_byte tag)
    /\ startAt + n <= Buffer.size b
    /\ (n = 34 \/ n = 40 \/ n = 52).
Proof.
  intros H0 Hsz. unfold WanPath_.deserialize. cbv zeta.
  unfold bind at 1. unfold lift at 1.
  destruct (Buffer.at64 b startAt) as [v1 |] eqn:R1; [|discriminate].
  apply at_n_Ok_bound in R1. rewrite bind_assign.
  rewrite (add32_small startAt 8) by lia.
  unfold bind at 1. unfold lift at 1.
  destruct (Buffer.at64 b (startAt + 8)) as [v2 |] eqn:R2; [|discriminate].
  apply at_n_Ok_bound in R2. rewrite bind_assign.
  rewrite (add32_small (startAt + 8) 8) by lia.
  unfold bind at 1. unfold lift at 1.
  destruct (Buffer.at64 b (startAt + 8 + 8)) as [v3 |] eqn:R3; [|discriminate].
  apply at_n_Ok_bound in R3. rewrite bind_assign.
  rewrite (add32_small (startAt + 8 + 8) 8) by lia.
  unfold bind at 1. unfold lift at 1.
  destruct (Buffer.at64 b (startAt + 8 + 8 + 8)) as [v4 |] eqn:R4;
    [|discriminate].
  apply at_n_Ok_bound in R4. rewrite bind_assign.
  rewrite (add32_small (startAt + 8 + 8 + 8) 8) by lia.
  replace (startAt + 8 + 8 + 8 + 8) with (startAt + 32) by ring.
  unfold bind at 1. unfold lift at 1.
  destruct (Buffer.index b (startAt + 32)) as [tag |] eqn:T; [|discriminate].
  pose proof (index_Ok_bound _ _ _ T) as Tb.
  rewrite (add32_small (startAt + 32) 1) by lia.
  unfold bind at 1.
  match goal with
  | |- context [WanPath_.deserialize_addr ?bb ?tt ?pp ?ww] =>
      destruct (WanPath_.deserialize_addr bb tt pp ww) as [w1 [p1 | e1]] eqn:D
  end; [|discriminate].
  apply deserialize_addr_Ok in D; [|lia|lia|lia].
  destruct D as [-> Dle].
  unfold bind at 1. unfold lift at 1.
  destruct (Buffer.index b (startAt + 32 + 1 + payload_length (Z_of_byte tag)))
    as [f |] eqn:F; [|discriminate].
  pose proof (index_Ok_bound _ _ _ F) as Fb.
  rewrite bind_assign. unfold ret.
  assert (Hp : payload_length (Z_of_byte tag) = 0
               \/ payload_length (Z_of_byte tag) = 6
               \/ payload_length (Z_of_byte tag) = 18).
  { unfold payload_length.
    destruct (Z_of_byte tag =? type_code InetAddress.TYPE_NULL); [auto|].
    destruct (Z_of_byte tag =? type_code InetAddress.TYPE_IPV4); [auto|].
    destruct (Z_of_byte tag =? type_code InetAddress.TYPE_IPV6); auto. }
  intros H. injection H as _ <-.
  rewrite add32_small by lia. rewrite sub32_small by lia.
  exists tag. split; [reflexivity|]. lia.
Qed.

(** X21: [WanPath::deserialize] gives no all-or-nothing guarantee.  On a
    buffer that ends right after the four 64-bit members it throws
    [std::out_of_range] and leaves the target with those four members
    overwritten from the buffer, its address and fixed flag as before. *)
Theorem WanPath_deserialize_truncated (b : Buffer.t) (startAt : Z)
    (w : WanPath) :
  0 <= startAt -> Buffer.size b < 2 ^ 32 ->
  startAt + 32 = Buffer.size b ->
  exists ls lr lf lp : Z,
    Buffer.at64 b startAt = Ok ls
    /\ Buffer.at64 b (startAt + 8) = Ok lr
    /\ Buffer.at64 b (startAt + 16) = Ok lf
    /\ Buffer.at64 b (startAt + 24) = Ok lp
    /\ WanPath_.deserialize b startAt w
       = (mkWanPath ls lr lf (Demarc.intToPort lp) (addr w) (fixed w),
          Throw out_of_range).
Proof.
  intros H0 Hsz Hend.
  eexists _, _, _, _.
  split; [apply at_n_in_bounds; lia|].
  split; [apply at_n_in_bounds; lia|].
  split; [apply at_n_in_bounds; lia|].
  split; [apply at_n_in_bounds; lia|].
  unfold WanPath_.deserialize, Buffer.at64. cbv zeta.
  rewrite (add32_small startAt 8) by lia.
  rewrite (add32_small (startAt + 8) 8) by lia.
  rewrite (add32_small (startAt + 8 + 8) 8) by lia.
  rewrite (add32_small (startAt + 8 + 8 + 8) 8) by lia.
  replace (startAt + 8 + 8 + 8 + 8) with (startAt + 32) by ring.
  replace (startAt + 8 + 8 + 8) with (startAt + 24) by ring.
  replace (startAt + 8 + 8) with (startAt + 16) by ring.
  rewrite (at_n_in_bounds 8 b startAt) by lia. do 2 monad_step.
  rewrite (at_n_in_bounds 8 b (startAt + 8)) by lia. do 2 monad_step.
  rewrite (at_n_in_bounds 8 b (startAt + 16)) by lia. do 2 monad_step.
  rewrite (at_n_in_bounds 8 b (startAt + 24)) by lia. do 2 monad_step.
  assert (Hi : Buffer.index b (startAt + 32) = Throw out_of_range).
  { unfold Buffer.index.
    destruct (Z.ltb_spec (startAt + 32) (Buffer.size b)); [lia | reflexivity]. }
  rewrite Hi, bind_lift_Throw. reflexivity.
Qed.

End DecodingProperties.

(** * The further properties on concrete records *)

Lemma bob_wf : Peer_wf Examples.bob.
Proof.
  unfold Peer_wf, WanPath_wf, is_u64, is_u32, is_u16. cbn.
  repeat split; (reflexivity || lia).
Qed.

Lemma alice_v70000_wf : Peer_wf Examples.alice_v70000.
Proof.
  unfold Peer_wf, WanPath_wf, is_u64, is_u32, is_u16. cbn.
  repeat split; (reflexivity || lia).
Qed.

Lemma alice_v4464_wf : Peer_wf MoreExamples.alice_v4464.
Proof.
  unfold Peer_wf, WanPath_wf, is_u64, is_u32, is_u16. cbn.
  repeat split; (reflexivity || lia).
Qed.

Lemma alice_ipv4_wf : WanPath_wf (_ipv4p Examples.alice).
Proof.
  unfold WanPath_wf, is_u64, is_u16. cbn.
  repeat split; (reflexivity || lia).
Qed.

Lemma isActive_window_witness :
  WanPath_.isActive (PF := Examples.platform) (_ipv4p Examples.alice) 100000
  = true.
Proof.
  refine (proj2 (isActive_window (PF := Examples.platform)
                   (_ipv4p Examples.alice) 100000 _ _ _ _ _) _).
  - unfold is_u64; lia.
  - unfold is_u64; cbn; lia.
  - cbn; lia.
  - reflexivity.
  - reflexivity.
  - cbn; lia.
Defined.

Lemma hasActiveDirectPath_hasDirectPath_witness :
  Peer_.hasDirectPath Examples.alice = true.
Proof.
  refine (proj1 (hasActiveDirectPath_hasDirectPath (PF := Examples.platform)
                   Examples.alice) 2100 _).
  reflexivity.
Defined.

Lemma hasActiveDirectPath_recent_witness :
  2200 - Peer_.lastDirectReceive Examples.carol < 241000.
Proof.
  refine (hasActiveDirectPath_recent (PF := Examples.platform)
            Examples.carol 2200 _ _ _ _ _ _ _ _).
  - unfold is_u64; lia.
  - unfold is_u64; cbn; lia.
  - unfold is_u64; cbn; lia.
  - cbn; lia.
  - cbn; lia.
  - reflexivity.
  - reflexivity.
  - reflexivity.
Defined.

Lemma latency_bounded_after_samples_witness :
  0 <= _latency
         (fold_left (fun p l => Peer_.addDirectLatencyMeasurment l p)
            [100; 200; 70000] Examples.bob)
  <= 65535
  /\ Peer_.latency
       (fold_left (fun p l => Peer_.addDirectLatencyMeasurment l p)
          [100; 200; 70000] Examples.bob)
     = _latency
         (fold_left (fun p l => Peer_.addDirectLatencyMeasurment l p)
            [100; 200; 70000] Examples.bob).
Proof.
  refine (latency_bounded_after_samples [100; 200; 70000] Examples.bob _ _ _).
  - repeat constructor; unfold is_u32; lia.
  - unfold is_u32; cbn; lia.
  - discriminate.
Defined.

Lemma addDirectLatencyMeasurment_between_witness :
  Z.min 120 (clamp16 200)
  <= _latency (Peer_.addDirectLatencyMeasurment 200 Examples.alice)
  <= Z.max 120 (clamp16 200).
Proof.
  refine (proj1 (proj2 (addDirectLatencyMeasurment_between
                          200 Examples.alice _ _)) _).
  - unfold is_u32; lia.
  - unfold is_u32; cbn; lia.
  - cbn; lia.
Defined.

Lemma WanPath_serialize_deserialize_witness :
  WanPath_.deserialize (PF := Examples.platform)
    MoreExamples.alice_ipv4_block (Buffer.size []) (_ipv6p Examples.bob)
  = (_ipv4p Examples.alice,
     Ok (Buffer.size MoreExamples.alice_ipv4_block - Buffer.size [])).
Proof.
  refine (WanPath_serialize_deserialize (PF := Examples.platform)
            100 (_ipv4p Examples.alice) (_ipv6p Examples.bob) []
            MoreExamples.alice_ipv4_block platform_codes_ok _ alice_ipv4_wf _).
  - lia.
  - vm_compute; reflexivity.
Defined.

Lemma serialize_deserialize_narrow16_witness :
  Peer_.deserialize (PF := Examples.platform) (IC := Examples.byte_identity)
    MoreExamples.alice_v70000_encoding (Buffer.size []) Examples.fresh
  = (narrow16 Examples.alice_v70000,
     Ok (Buffer.size MoreExamples.alice_v70000_encoding - Buffer.size [])).
Proof.
  refine (proj1 (serialize_deserialize_narrow16 (PF := Examples.platform)
                   (IC := Examples.byte_identity)
                   1000 Examples.alice_v70000 Examples.fresh []
                   MoreExamples.alice_v70000_encoding
                   platform_codes_ok byte_identity_ok _ alice_v70000_wf _)).
  - lia.
  - vm_compute; reflexivity.
Defined.

Lemma deserialize_consecutive_records_witness :
  exists n m : Z,
    Peer_.deserialize (PF := Examples.platform)
      (IC := Examples.byte_identity)
      MoreExamples.alice_then_bob (Buffer.size []) Examples.fresh
    = (narrow16 Examples.alice, Ok n)
    /\ Peer_.deserialize (PF := Examples.platform)
         (IC := Examples.byte_identity)
         MoreExamples.alice_then_bob (Buffer.size [] + n) Examples.fresh
       = (narrow16 Examples.bob, Ok m)
    /\ Buffer.size [] + n + m = Buffer.size MoreExamples.alice_then_bob.
Proof.
  refine (deserialize_consecutive_records (PF := Examples.platform)
            (IC := Examples.byte_identity)
            1000 Examples.alice Examples.bob Examples.fresh Examples.fresh
            [] MoreExamples.alice_alone MoreExamples.alice_then_bob
            platform_codes_ok byte_identity_ok _ alice_wf bob_wf _ _).
  - lia.
  - vm_compute; reflexivity.
  - vm_compute; reflexivity.
Defined.

Lemma serialize_injective_witness :
  narrow16 Examples.alice_v70000 = narrow16 MoreExamples.alice_v4464.
Proof.
  refine (serialize_injective (PF := Examples.platform)
            (IC := Examples.byte_identity)
            1000 Examples.alice_v70000 MoreExamples.alice_v4464 []
            MoreExamples.alice_v70000_encoding
            platform_codes_ok byte_identity_ok _
            alice_v70000_wf alice_v4464_wf _ _).
  - lia.
  - vm_compute; reflexivity.
  - vm_compute; reflexivity.
Defined.

Lemma serialize_succeeds_iff_fits_witness :
  Peer_.serialize (PF := Examples.platform) (IC := Examples.byte_identity)
    1000 Examples.alice []
  = ([] ++ Peer_bytes (PF := Examples.platform)
             (IC := Examples.byte_identity) Examples.alice,
     Ok tt).
Proof.
  refine (proj1 (serialize_succeeds_iff_fits (PF := Examples.platform)
                   (IC := Examples.byte_identity)
                   1000 Examples.alice [] alice_wf _) _).
  - vm_compute; discriminate.
  - vm_compute; discriminate.
Defined.

Lemma serialize_overflow_witness :
  concat (Peer_chunks (PF := Examples.platform)
            (IC := Examples.byte_identity) Examples.alice)
  = Peer_bytes (PF := Examples.platform) (IC := Examples.byte_identity)
      Examples.alice
  /\ exists (done : list (list byte)) (c : list byte)
            (rest : list (list byte)),
      Peer_chunks (PF := Examples.platform) (IC := Examples.byte_identity)
        Examples.alice = done ++ c :: rest
      /\ Buffer.size [] + Buffer.size (concat done) <= 40
      /\ 40 < Buffer.size [] + Buffer.size (concat done) + Buffer.size c
      /\ Peer_.serialize (PF := Examples.platform)
           (IC := Examples.byte_identity) 40 Examples.alice []
         = ([] ++ concat done, Throw out_of_range).
Proof.
  refine (serialize_overflow (PF := Examples.platform)
            (IC := Examples.byte_identity) 40 Examples.alice [] alice_wf _ _).
  - vm_compute; discriminate.
  - vm_compute; reflexivity.
Defined.

Lemma serialize_length_witness :
  Buffer.size MoreExamples.alice_alone = 0 + 73 + 1 + (34 + 6) + (34 + 18).
Proof.
  refine (serialize_length (PF := Examples.platform)
            (IC := Examples.byte_identity)
            1000 Examples.alice [] MoreExamples.alice_alone alice_wf _).
  vm_compute; reflexivity.
Defined.

Lemma deserialize_too_short_witness :
  fst (Peer_.deserialize (PF := Examples.platform)
         (IC := Examples.byte_identity)
         MoreExamples.short_record 0 Examples.bob) = Examples.bob
  /\ exists e : exn,
      snd (Peer_.deserialize (PF := Examples.platform)
             (IC := Examples.byte_identity)
             MoreExamples.short_record 0 Examples.bob) = Throw e.
Proof.
  refine (deserialize_too_short (PF := Examples.platform)
            (IC := Examples.byte_identity)
            MoreExamples.short_record 0 Examples.bob _ _ _).
  - lia.
  - vm_compute; reflexivity.
  - vm_compute; reflexivity.
Defined.

Lemma deserialize_Ok_version_witness :
  exists v : byte,
    Buffer.index Examples.alice_encoding 1 = Ok v
    /\ Z_of_byte v = ZT_PEER_SERIALIZATION_VERSION.
Proof.
  refine (deserialize_Ok_version (PF := Examples.platform)
            (IC := Examples.byte_identity)
            Examples.alice_encoding 1 166 Examples.fresh Examples.alice _).
  vm_compute; reflexivity.
Defined.

Lemma WanPath_deserialize_Ok_bounds_witness :
  exists tag : byte,
    Buffer.index MoreExamples.alice_ipv4_block (0 + 32) = Ok tag
    /\ 40 = 34 + payload_length (PF := Examples.platform) (Z_of_byte tag)
    /\ 0 + 40 <= Buffer.size MoreExamples.alice_ipv4_block
    /\ (40 = 34 \/ 40 = 40 \/ 40 = 52).
Proof.
  refine (WanPath_deserialize_Ok_bounds (PF := Examples.platform)
            MoreExamples.alice_ipv4_block 0 40
            (_ipv6p Examples.bob) (_ipv4p Examples.alice) _ _ _).
  - lia.
  - vm_compute; reflexivity.
  - vm_compute; reflexivity.
Defined.

Lemma WanPath_deserialize_truncated_witness :
  exists ls lr lf lp : Z,
    Buffer.at64 MoreExamples.block_without_tag 0 = Ok ls
    /\ Buffer.at64 MoreExamples.block_without_tag (0 + 8) = Ok lr
    /\ Buffer.at64 MoreExamples.block_without_tag (0 + 16) = Ok lf
    /\ Buffer.at64 MoreExamples.block_without_tag (0 + 24) = Ok lp
    /\ WanPath_.deserialize (PF := Examples.platform)
         MoreExamples.block_without_tag 0 (_ipv4p Examples.alice)
       = (mkWanPath ls lr lf (Demarc.intToPort lp)
            (addr (_ipv4p Examples.alice)) (fixed (_ipv4p Examples.alice)),
          Throw out_of_range).
Proof.
  refine (WanPath_deserialize_truncated (PF := Examples.platform)
            MoreExamples.block_without_tag 0 (_ipv4p Examples.alice) _ _ _).
  - lia.
  - vm_compute; reflexivity.
  - vm_compute; reflexivity.
Defined.

(** * Two more properties *)

Section Closing.
Context {PF : Platform} {Identity : Type}.

(** X22: every failure of [WanPath::deserialize] is [std::out_of_range],
    for every buffer, position and target; the [std::invalid_argument] of
    its exception specification is never thrown. *)
Theorem WanPath_deserialize_failure (b : Buffer.t) (startAt : Z)
    (w : WanPath) (e : exn) :
  snd (WanPath_.deserialize b startAt w) = Throw e -> e = out_of_range.
Proof.
  destruct (WanPath_.deserialize b startAt w) as [w' r] eqn:E.
  cbn [snd]. intros ->.
  eapply WanPath_deserialize_Throw. eassumption.
Qed.

(** X23: an IPv4 pair is preferred to an IPv6 pair that both peers have on
    record only when both IPv4 paths are active and the IPv6 paths are not
    both active. *)
Theorem findCommonGround_ipv4_over_ipv6 (a b : Peer Identity) (now : Z) :
  InetAddress.to_bool (addr (_ipv6p a)) = true ->
  InetAddress.to_bool (addr (_ipv6p b)) = true ->
  Peer_.findCommonGround a b now <> (addr (_ipv6p b), addr (_ipv6p a)) ->
  Peer_.findCommonGround a b now = (addr (_ipv4p b), addr (_ipv4p a))
  /\ WanPath_.isActive (_ipv4p a) now = true
  /\ WanPath_.isActive (_ipv4p b) now = true
  /\ WanPath_.isActive (_ipv6p a) now && WanPath_.isActive (_ipv6p b) now
     = false.
Proof.
  intros A6 B6. unfold Peer_.findCommonGround. rewrite A6, B6.
  destruct (WanPath_.isActive (_ipv6p a) now
            && WanPath_.isActive (_ipv6p b) now) eqn:E6;
    [intros H; contradiction H; reflexivity|].
  destruct (WanPath_.isActive (_ipv4p a) now
            && WanPath_.isActive (_ipv4p b) now) eqn:E4.
  - intros _. apply andb_true_iff in E4. destruct E4 as [E4a E4b].
    repeat split; auto.
  - cbn [andb]. intros H. contradiction H. reflexivity.
Qed.

End Closing.

Lemma WanPath_deserialize_failure_witness :
  snd (WanPath_.deserialize (PF := Examples.platform)
         MoreExamples.block_without_tag 0 (_ipv4p Examples.alice))
  = Throw out_of_range
  /\ out_of_range = out_of_range.
Proof.
  split; [vm_compute; reflexivity|].
  refine (WanPath_deserialize_failure (PF := Examples.platform)
            MoreExamples.block_without_tag 0 (_ipv4p Examples.alice)
            out_of_range _).
  vm_compute; reflexivity.
Defined.

Lemma findCommonGround_ipv4_over_ipv6_witness :
  Peer_.findCommonGround (PF := Examples.platform)
    MoreExamples.dave MoreExamples.erin 300000
  = (addr (_ipv4p MoreExamples.erin), addr (_ipv4p MoreExamples.dave))
  /\ WanPath_.isActive (PF := Examples.platform)
       (_ipv4p MoreExamples.dave) 300000 = true
  /\ WanPath_.isActive (PF := Examples.platform)
       (_ipv4p MoreExamples.erin) 300000 = true
  /\ WanPath_.isActive (PF := Examples.platform)
       (_ipv6p MoreExamples.dave) 300000
     && WanPath_.isActive (PF := Examples.platform)
          (_ipv6p MoreExamples.erin) 300000
     = false.
Proof.
  refine (findCommonGround_ipv4_over_ipv6 (PF := Examples.platform)
            MoreExamples.dave MoreExamples.erin 300000 _ _ _).
  - reflexivity.
  - reflexivity.
  - vm_compute; discriminate.
Defined.
